(** * Pull-request / local-branch resolver: a shallow embedding

    This development embeds [src/bitbucket/pullRequestGitHelper.ts] (class
    [PullRequestGitHelper]) and proves properties of its naming functions, of
    its metadata codec and of its reconciliation workflows.

    Conventions of the embedding:
    - a JavaScript string is a [string]; each [ascii] stands for one UTF-16
      code unit below 256;
    - a JavaScript integer (the PR number, the loop counters) is a [Z];
    - [null] and [undefined] results are [None];
    - an [async] method is a computation in the monad [M] below, which threads
      the repository, records every call made to the repository engine and
      propagates rejections. *)

From Stdlib Require Import Bool Arith ZArith QArith Lia List FinFun.
From Stdlib Require Import String Ascii.
From Stdlib Require Import DecimalString DecimalZ DecimalN DecimalPos.
Import ListNotations.

Close Scope Q_scope.
Open Scope list_scope.
Open Scope string_scope.
Open Scope nat_scope.

(* ================================================================== *)
(** * Strings *)
(* ================================================================== *)

Module Str.

(** The character [c] occurs in [s]. *)
Fixpoint contains (c : ascii) (s : string) : bool :=
  match s with
  | EmptyString => false
  | String d s' => Ascii.eqb d c || contains c s'
  end.

(** Number of occurrences of [c] in [s]. *)
Fixpoint count (c : ascii) (s : string) : nat :=
  match s with
  | EmptyString => 0
  | String d s' => (if Ascii.eqb d c then 1 else 0) + count c s'
  end.

(** Every character of [s] satisfies [p]. *)
Fixpoint all (p : ascii -> bool) (s : string) : bool :=
  match s with
  | EmptyString => true
  | String d s' => p d && all p s'
  end.

(** The first [n] characters of [s]. *)
Fixpoint take (n : nat) (s : string) : string :=
  match n, s with
  | S n', String c s' => String c (take n' s')
  | _, _ => EmptyString
  end.

(** Longest prefix whose characters satisfy [p], and the rest. *)
Fixpoint span (p : ascii -> bool) (s : string) : string * string :=
  match s with
  | EmptyString => (EmptyString, EmptyString)
  | String c s' =>
      if p c then let (a, b) := span p s' in (String c a, b)
      else (EmptyString, s)
  end.

Definition is_empty (s : string) : bool :=
  match s with EmptyString => true | _ => false end.

End Str.

(** ECMAScript LineTerminator code units (below 256): LF and CR. *)
Definition is_line_terminator (c : ascii) : bool :=
  Ascii.eqb c "010"%char || Ascii.eqb c "013"%char.

(** ECMAScript StrWhiteSpaceChar code units (below 256): TAB, LF, VT, FF, CR,
    SP and NBSP. *)
Definition is_str_whitespace (c : ascii) : bool :=
  let n := nat_of_ascii c in
  ((9 <=? n) && (n <=? 13)) || (n =? 32) || (n =? 160).

Definition is_decimal_digit (c : ascii) : bool :=
  let n := nat_of_ascii c in (48 <=? n) && (n <=? 57).

(* ================================================================== *)
(** * Regular expressions, as [RegExp.prototype.exec] runs them *)
(* ================================================================== *)

Module RegExp.

(** One-character patterns: a literal character, or [.], which matches any
    character except a line terminator. *)
Inductive atom : Type :=
| AChar (c : ascii)
| ADot.

Definition atom_matches (a : atom) (c : ascii) : bool :=
  match a with
  | AChar d => Ascii.eqb c d
  | ADot => negb (is_line_terminator c)
  end.

(** The fragment of the pattern language the two literals of the source use:
    sequences, numbered capture groups, and the greedy quantifiers [*] and
    [+] applied to a single-character pattern. *)
Inductive regex : Type :=
| REmpty
| RAtom (a : atom)
| RStar (a : atom)
| RPlus (a : atom)
| RGroup (i : nat) (r : regex)
| RSeq (r1 r2 : regex).

(** A literal piece of pattern text. *)
Fixpoint lit (s : string) : regex :=
  match s with
  | EmptyString => REmpty
  | String c s' => RSeq (RAtom (AChar c)) (lit s')
  end.

Definition captures : Type := list (nat * string).

Fixpoint capture (i : nat) (cs : captures) : option string :=
  match cs with
  | [] => None
  | (j, s) :: cs' => if Nat.eqb i j then Some s else capture i cs'
  end.

(** Greedy iteration of an atom with backtracking: the longest run is tried
    first, and one character is given back each time the continuation
    fails. *)
Fixpoint star_greedy {R : Type} (a : atom) (inp : string)
    (k : string -> option R) : option R :=
  match inp with
  | String c rest =>
      if atom_matches a c then
        match star_greedy a rest k with
        | Some r => Some r
        | None => k inp
        end
      else k inp
  | EmptyString => k inp
  end.

(** Backtracking matcher in continuation-passing style.  [k] receives what is
    left of the input and the captures made so far. *)
Fixpoint rmatch {R : Type} (r : regex) (inp : string) (cs : captures)
    (k : string -> captures -> option R) : option R :=
  match r with
  | REmpty => k inp cs
  | RAtom a =>
      match inp with
      | String c rest => if atom_matches a c then k rest cs else None
      | EmptyString => None
      end
  | RStar a => star_greedy a inp (fun rest => k rest cs)
  | RPlus a =>
      match inp with
      | String c rest =>
          if atom_matches a c then star_greedy a rest (fun rest' => k rest' cs)
          else None
      | EmptyString => None
      end
  | RGroup i r1 =>
      rmatch r1 inp cs (fun rest cs' =>
        k rest ((i, Str.take (String.length inp - String.length rest) inp) :: cs'))
  | RSeq r1 r2 =>
      rmatch r1 inp cs (fun rest cs' => rmatch r2 rest cs' k)
  end.

Fixpoint ngroups (r : regex) : nat :=
  match r with
  | RGroup i r1 => Nat.max i (ngroups r1)
  | RSeq r1 r2 => Nat.max (ngroups r1) (ngroups r2)
  | _ => 0
  end.

(** The match array: entry 0 is the matched text, entry [i] is capture group
    [i], [None] for a group that took no part in the match. *)
Definition match_array (r : regex) (inp rest : string) (cs : captures)
    : list (option string) :=
  Some (Str.take (String.length inp - String.length rest) inp)
  :: map (fun i => capture i cs) (seq 1 (ngroups r)).

(** [exec] with [lastIndex = 0]: the leftmost start position that matches
    wins; [None] is the [null] result. *)
Fixpoint exec (r : regex) (inp : string) : option (list (option string)) :=
  match rmatch r inp [] (fun rest cs => Some (match_array r inp rest cs)) with
  | Some m => Some m
  | None =>
      match inp with
      | EmptyString => None
      | String _ rest => exec r rest
      end
  end.

End RegExp.

(* ================================================================== *)
(** * Numbers: [String(n)] and [Number(s)] *)
(* ================================================================== *)

(** [Number.prototype.toString] on an integer: the decimal digits, with a
    minus sign for negative values.  (For integers the engine prints in this
    form up to 10^21.) *)
Definition Number_toString (n : Z) : string :=
  NilZero.string_of_int (Z.to_int n).

(** A JavaScript number as [Number(s)] yields it.  [JFinite neg q] is the
    double nearest to the rational of sign [neg] and magnitude [q]: the
    rational is the mathematical value of the literal, before rounding.  An
    integer of magnitude at most 2^53 is its own rounding. *)
Inductive JsNumber : Type :=
| JNaN
| JInfinity (negative : bool)
| JFinite (negative : bool) (magnitude : Q).

Definition JsNumber_of_Z (n : Z) : JsNumber :=
  JFinite (n <? 0)%Z (inject_Z (Z.abs n)).

Module StringToNumber.

Fixpoint trim_left (s : string) : string :=
  match s with
  | String c s' => if is_str_whitespace c then trim_left s' else s
  | EmptyString => EmptyString
  end.

Fixpoint trim_right (s : string) : string :=
  match s with
  | String c s' =>
      let t := trim_right s' in
      if is_str_whitespace c && Str.is_empty t then EmptyString
      else String c t
  | EmptyString => EmptyString
  end.

Definition trim (s : string) : string := trim_right (trim_left s).

(** Value of a run of decimal digits (0 for the empty run). *)
Definition decimal_digits_value (ds : string) : N :=
  match NilEmpty.uint_of_string ds with
  | Some u => N.of_uint u
  | None => 0%N
  end.

Definition digit_in_radix (radix : N) (c : ascii) : option N :=
  let n := N_of_ascii c in
  let v :=
    if (48 <=? n)%N && (n <=? 57)%N then Some (n - 48)%N
    else if (97 <=? n)%N && (n <=? 102)%N then Some (n - 87)%N
    else if (65 <=? n)%N && (n <=? 70)%N then Some (n - 55)%N
    else None in
  match v with
  | Some d => if (d <? radix)%N then Some d else None
  | None => None
  end.

(** Value of a non-empty run of digits in the given radix; [None] when the
    run is empty or holds another character. *)
Fixpoint radix_value (radix : N) (acc : N) (s : string) : option N :=
  match s with
  | EmptyString => Some acc
  | String c s' =>
      match digit_in_radix radix c with
      | Some d => radix_value radix (acc * radix + d)%N s'
      | None => None
      end
  end.

Definition radix_literal (radix : N) (body : string) : JsNumber :=
  if Str.is_empty body then JNaN
  else match radix_value radix 0 body with
       | Some v => JFinite false (inject_Z (Z.of_N v))
       | None => JNaN
       end.

(** NonDecimalIntegerLiteral: [0x], [0o] and [0b] literals, unsigned. *)
Definition non_decimal_literal (t : string) : option JsNumber :=
  match t with
  | String "0" (String p body) =>
      if Ascii.eqb p "x" || Ascii.eqb p "X" then Some (radix_literal 16 body)
      else if Ascii.eqb p "o" || Ascii.eqb p "O" then Some (radix_literal 8 body)
      else if Ascii.eqb p "b" || Ascii.eqb p "B" then Some (radix_literal 2 body)
      else None
  | _ => None
  end.

Definition split_sign (t : string) : bool * string :=
  match t with
  | String "+" r => (false, r)
  | String "-" r => (true, r)
  | _ => (false, t)
  end.

(** ExponentPart, optional, which must end the literal: the exponent, or
    [None] when the text is not a well-formed exponent part. *)
Definition exponent_part (r : string) : option Z :=
  match r with
  | EmptyString => Some 0%Z
  | String e r' =>
      if Ascii.eqb e "e" || Ascii.eqb e "E" then
        let (neg, r'') := split_sign r' in
        let (ds, rest) := Str.span is_decimal_digit r'' in
        if Str.is_empty ds || negb (Str.is_empty rest) then None
        else
          let v := Z.of_N (decimal_digits_value ds) in
          Some (if neg then (- v)%Z else v)
      else None
  end.

(** [mant * 10 ^ exp] as a rational in lowest terms. *)
Definition scale10 (mant : N) (exp : Z) : Q :=
  if (0 <=? exp)%Z then inject_Z (Z.of_N mant * 10 ^ exp)
  else Qred (Qmake (Z.of_N mant) (Z.to_pos (10 ^ (- exp)))).

(** StrUnsignedDecimalLiteral: [Infinity], or decimal digits with an
    optional fraction and an optional exponent. *)
Definition str_unsigned_decimal_literal (neg : bool) (u : string) : JsNumber :=
  if String.eqb u "Infinity" then JInfinity neg
  else
    let (d1, r1) := Str.span is_decimal_digit u in
    let '(d2, r2) :=
      match r1 with
      | String "." r => Str.span is_decimal_digit r
      | _ => (EmptyString, r1)
      end in
    if Str.is_empty d1 && Str.is_empty d2 then JNaN
    else
      match exponent_part r2 with
      | Some e =>
          JFinite neg
            (scale10 (decimal_digits_value (d1 ++ d2))
                     (e - Z.of_nat (String.length d2)))
      | None => JNaN
      end.

(** StrDecimalLiteral: an optional sign, then the unsigned literal. *)
Definition str_decimal_literal (t : string) : JsNumber :=
  let (neg, u) := split_sign t in
  str_unsigned_decimal_literal neg u.

End StringToNumber.

(** [Number(s)] on a string: white space is trimmed, the empty text is 0, and
    text that is not a StringNumericLiteral is NaN. *)
Definition Number (s : string) : JsNumber :=
  let t := StringToNumber.trim s in
  if Str.is_empty t then JFinite false 0%Q
  else
    match StringToNumber.non_decimal_literal t with
    | Some v => v
    | None => StringToNumber.str_decimal_literal t
    end.


(* ================================================================== *)
(** * The collaborators of the helper *)
(* ================================================================== *)

(** The clone identity, class [Protocol] of [common/protocol].  Its code is
    not part of the sources: the helper is embedded over any implementation
    of the members it uses. *)
Class ProtocolApi (Protocol : Type) : Type := {
  (** [new Protocol(url)] *)
  Protocol_new : string -> Protocol;
  (** [p.equals(q)] *)
  protocol_equals : Protocol -> Protocol -> bool;
  (** [p.owner] *)
  protocol_owner : Protocol -> string;
  (** [p.repositoryName] *)
  protocol_repositoryName : Protocol -> string;
  (** [p.normalizeUri().toString()] *)
  protocol_normalizeUri : Protocol -> string
}.

(** [Remote] of [common/remote]. *)
Record Remote (Protocol : Type) : Type := {
  remoteName : string;
  url : string;
  gitProtocol : option Protocol
}.
Arguments remoteName {Protocol} _.
Arguments url {Protocol} _.
Arguments gitProtocol {Protocol} _.

(** A branch as the engine reports it; the optional members are [None] when
    [undefined]. *)
Record Branch : Type := {
  commit : option string;
  upstream : option string;
  ahead : option Z;
  behind : option Z
}.

Record ConfigEntry : Type := {
  key : string;
  value : string
}.

(** The pull request descriptor, [IPullRequestModel] of [./interface]. *)
Module Model.

Record IUser : Type := { login : string }.

Record Side (Protocol : Type) : Type := {
  ref : string;
  sha : string;
  repositoryCloneUrl : Protocol
}.
Arguments ref {Protocol} _.
Arguments sha {Protocol} _.
Arguments repositoryCloneUrl {Protocol} _.

Record IPullRequestModel (Protocol : Type) : Type := {
  prNumber : Z;
  author : IUser;
  head : Side Protocol;
  base : Side Protocol
}.
Arguments prNumber {Protocol} _.
Arguments author {Protocol} _.
Arguments head {Protocol} _.
Arguments base {Protocol} _.

End Model.

(** [GitHubRepository] of [./githubRepository]: the helper reads its [remote]
    member only. *)
Record GitHubRepository (Protocol : Type) : Type := {
  remote : Remote Protocol
}.
Arguments remote {Protocol} _.

(** Answer of the engine to a call that changes the repository. *)
Inductive Reply : Type :=
| Accepted
| Rejected (reason : string).

(** The repository engine, class [Repository] of [common/repository].  Its
    code is not part of the sources: the helper is embedded over any engine
    with this interface.  A query answers from the current repository; a
    command yields the repository it leaves and may be rejected. *)
Class RepositoryApi (Protocol : Type) (Repo : Type) : Type := {
  repo_remotes : Repo -> list (Remote Protocol);
  repo_getBranch : Repo -> string -> option Branch;
  repo_getConfig : Repo -> string -> option string;
  repo_getConfigs : Repo -> list ConfigEntry;
  repo_getMergeBase : Repo -> string -> string -> option string;
  repo_checkout : string -> Repo -> Reply * Repo;
  repo_createBranch : string -> option string -> Repo -> Reply * Repo;
  repo_setTrackingBranch : string -> string -> Repo -> Reply * Repo;
  repo_fetch : string -> option string -> Repo -> Reply * Repo;
  repo_run : list string -> Repo -> Reply * Repo;
  repo_setConfig : string -> string -> Repo -> Reply * Repo;
  repo_addRemote : string -> string -> Repo -> Reply * Repo
}.

(* ================================================================== *)
(** * The monad of the asynchronous methods *)
(* ================================================================== *)

(** A call made to the engine; a query is recorded with its answer. *)
Inductive Call : Type :=
| GetBranch (name : string) (answer : option Branch)
| GetConfig (k : string) (answer : option string)
| GetConfigs (answer : list ConfigEntry)
| GetMergeBase (ref1 ref2 : string) (answer : option string)
| Checkout (name : string)
| CreateBranch (name : string) (startPoint : option string)
| SetTrackingBranch (name upstreamRef : string)
| Fetch (remoteName : string) (refspec : option string)
| Run (args : list string)
| SetConfig (k v : string)
| AddRemote (name url : string).

(** What makes a method fail: an [Error] it throws itself, a member read on
    [null], or a command the engine rejects. *)
Inductive Failure : Type :=
| Error (message : string)
| TypeError
| EngineRejected (c : Call) (reason : string).

Inductive Outcome (A : Type) : Type :=
| Returned (a : A)
| Thrown (f : Failure)
| OutOfFuel.
Arguments Returned {A} a.
Arguments Thrown {A} f.
Arguments OutOfFuel {A}.

(** The repository together with the calls made so far, oldest first. *)
Record World (Repo : Type) : Type := {
  repo : Repo;
  calls : list Call
}.
Arguments repo {Repo} _.
Arguments calls {Repo} _.

Definition start {Repo : Type} (r : Repo) : World Repo :=
  {| repo := r; calls := [] |}.

Definition M (Repo A : Type) : Type := World Repo -> Outcome A * World Repo.

Definition ret {Repo A : Type} (a : A) : M Repo A :=
  fun w => (Returned a, w).

Definition bind {Repo A B : Type} (m : M Repo A) (f : A -> M Repo B)
    : M Repo B :=
  fun w =>
    match m w with
    | (Returned a, w') => f a w'
    | (Thrown e, w') => (Thrown e, w')
    | (OutOfFuel, w') => (OutOfFuel, w')
    end.

Definition throw {Repo A : Type} (e : Failure) : M Repo A :=
  fun w => (Thrown e, w).

Definition out_of_fuel {Repo A : Type} : M Repo A :=
  fun w => (OutOfFuel, w).

Declare Scope helper_scope.
Delimit Scope helper_scope with helper.
Notation "x <- m ;; f" := (bind m (fun x => f))
  (at level 61, m at next level, right associativity) : helper_scope.
Notation "m ;; f" := (bind m (fun _ => f))
  (at level 61, right associativity) : helper_scope.
Open Scope helper_scope.

(** A query: answered from the repository, recorded, never failing. *)
Definition query {Repo A : Type} (ask : Repo -> A) (c : A -> Call) : M Repo A :=
  fun w =>
    let a := ask (repo w) in
    (Returned a, {| repo := repo w; calls := (calls w ++ [c a])%list |}).

(** A command: recorded, then run by the engine; a rejection is thrown. *)
Definition command {Repo : Type} (run : Repo -> Reply * Repo) (c : Call)
    : M Repo unit :=
  fun w =>
    let (reply, r') := run (repo w) in
    let w' := {| repo := r'; calls := (calls w ++ [c])%list |} in
    match reply with
    | Accepted => (Returned tt, w')
    | Rejected reason => (Thrown (EngineRejected c reason), w')
    end.

(** Truthiness of an optional string: [undefined], [null] and the empty
    string are falsy. *)
Definition truthy (v : option string) : bool :=
  match v with
  | Some s => negb (Str.is_empty s)
  | None => false
  end.

(* ================================================================== *)
(** * pullRequestGitHelper.ts *)
(* ================================================================== *)

Definition PullRequestRemoteMetadataKey : string := "github-pr-remote".
Definition PullRequestMetadataKey : string := "github-pr-owner-number".

(** [/branch\.(.+)\.github-pr-owner-number/] *)
Definition PullRequestBranchRegex : RegExp.regex :=
  RegExp.RSeq (RegExp.lit "branch.")
    (RegExp.RSeq (RegExp.RGroup 1 (RegExp.RPlus RegExp.ADot))
       (RegExp.lit ".github-pr-owner-number")).

(** The pattern of [parsePullRequestMetadata]: three capture groups, each a
    greedy run of any characters, separated by two [#].  The literal carries
    the flag [g] and is evaluated at each call, so that [lastIndex] is 0 when
    [exec] runs. *)
Definition PullRequestMetadataRegex : RegExp.regex :=
  RegExp.RSeq (RegExp.RGroup 1 (RegExp.RStar RegExp.ADot))
    (RegExp.RSeq (RegExp.lit "#")
       (RegExp.RSeq (RegExp.RGroup 2 (RegExp.RStar RegExp.ADot))
          (RegExp.RSeq (RegExp.lit "#")
             (RegExp.RGroup 3 (RegExp.RStar RegExp.ADot))))).

Record PullRequestMetadata : Type := {
  owner : string;
  repositoryName : string;
  prNumber : JsNumber
}.

(** The three capture groups take part in every match of the pattern (lemma
    [CodecFacts.exec_metadata_sound] below), so the destructured entries are
    strings and the last case of the inner [match] is never reached. *)
Definition parsePullRequestMetadata (value : option string)
    : option PullRequestMetadata :=
  match value with
  | Some v =>
      if truthy value then
        match RegExp.exec PullRequestMetadataRegex v with
        | Some matches =>
            if List.length matches =? 4 then
              match matches with
              | [_; Some owner; Some repo; Some prNumber] =>
                  Some {| owner := owner;
                          repositoryName := repo;
                          prNumber := Number prNumber |}
              | _ => None
              end
            else None
        | None => None
        end
      else None
  | None => None
  end.

(** The object literals of [getBranchForPullRequestFromExistingRemotes]. *)
Record BranchInfo : Type := {
  bi_branch : option string;
  bi_value : string
}.

Record RemoteBranch (Protocol : Type) : Type := {
  rb_remote : Remote Protocol;
  rb_branch : string
}.
Arguments rb_remote {Protocol} _.
Arguments rb_branch {Protocol} _.

Section Helper.

Context {Protocol Repo : Type}.
Context `{PA : ProtocolApi Protocol} `{RA : RepositoryApi Protocol Repo}.

(** ** The methods of [Repository], as computations *)

Definition remotes : M Repo (list (Remote Protocol)) :=
  fun w => (Returned (repo_remotes (repo w)), w).

Definition getBranch (name : string) : M Repo (option Branch) :=
  query (fun r => repo_getBranch r name) (GetBranch name).

Definition getConfig (k : string) : M Repo (option string) :=
  query (fun r => repo_getConfig r k) (GetConfig k).

Definition getConfigs : M Repo (list ConfigEntry) :=
  query repo_getConfigs GetConfigs.

Definition getMergeBase (ref1 ref2 : string) : M Repo (option string) :=
  query (fun r => repo_getMergeBase r ref1 ref2) (GetMergeBase ref1 ref2).

Definition checkout (name : string) : M Repo unit :=
  command (repo_checkout name) (Checkout name).

Definition createBranch (name : string) (startPoint : option string)
    : M Repo unit :=
  command (repo_createBranch name startPoint) (CreateBranch name startPoint).

Definition setTrackingBranch (name upstreamRef : string) : M Repo unit :=
  command (repo_setTrackingBranch name upstreamRef)
          (SetTrackingBranch name upstreamRef).

Definition fetch (remoteName : string) (refspec : option string)
    : M Repo unit :=
  command (repo_fetch remoteName refspec) (Fetch remoteName refspec).

Definition run (args : list string) : M Repo unit :=
  command (repo_run args) (Run args).

Definition setConfig (k v : string) : M Repo unit :=
  command (repo_setConfig k v) (SetConfig k v).

Definition addRemote (name url : string) : M Repo unit :=
  command (repo_addRemote name url) (AddRemote name url).

(** ** The helper

    The lines written to [Logger] have no part in the results and are left
    out. *)

Definition buildPullRequestMetadata
    (pullRequest : Model.IPullRequestModel Protocol) : string :=
  protocol_owner (Model.repositoryCloneUrl (Model.base pullRequest)) ++ "#"
  ++ protocol_repositoryName (Model.repositoryCloneUrl (Model.base pullRequest))
  ++ "#" ++ Number_toString (Model.prNumber pullRequest).

Definition getMatchingPullRequestMetadataForBranch (branchName : string)
    : M Repo (option PullRequestMetadata) :=
  let configKey := "branch." ++ branchName ++ "." ++ PullRequestMetadataKey in
  configValue <- getConfig configKey ;;
  ret (parsePullRequestMetadata configValue).

Definition isRemoteCreatedForPullRequest (remoteName : string) : M Repo bool :=
  isForPR <- getConfig ("remote." ++ remoteName ++ "."
                        ++ PullRequestRemoteMetadataKey) ;;
  match isForPR with
  | Some v => ret (String.eqb v "true")
  | None => ret false
  end.

(** The [while (true)] loop of [getBranchNameForPullRequest]; [fuel] bounds
    the number of iterations. *)
Fixpoint getBranchNameForPullRequest_loop (fuel : nat)
    (branchName result : string) (number : Z) : M Repo string :=
  match fuel with
  | O => out_of_fuel
  | S fuel' =>
      currentBranch <- getBranch result ;;
      match currentBranch with
      | Some _ =>
          getBranchNameForPullRequest_loop fuel' branchName
            (branchName ++ "-" ++ Number_toString number) (number + 1)%Z
      | None => ret result
      end
  end.

Definition getBranchNameForPullRequest (fuel : nat)
    (pullRequest : Model.IPullRequestModel Protocol) : M Repo string :=
  let branchName :=
    "pr/" ++ Model.login (Model.author pullRequest) ++ "/"
    ++ Number_toString (Model.prNumber pullRequest) in
  getBranchNameForPullRequest_loop fuel branchName branchName 1%Z.

(** The [while] loop of [getUniqueRemoteName]; it reads [repository.remotes]
    and makes no call.  [None] when [fuel] iterations do not suffice. *)
Fixpoint getUniqueRemoteName_loop (fuel : nat) (rs : list (Remote Protocol))
    (name uniqueName : string) (number : Z) : option string :=
  match fuel with
  | O => None
  | S fuel' =>
      match find (fun e => String.eqb (remoteName e) uniqueName) rs with
      | Some _ =>
          getUniqueRemoteName_loop fuel' rs name
            (name ++ Number_toString number) (number + 1)%Z
      | None => Some uniqueName
      end
  end.

Definition getUniqueRemoteName (fuel : nat) (repository : Repo) (name : string)
    : option string :=
  getUniqueRemoteName_loop fuel (repo_remotes repository) name name 1%Z.

Definition createRemote (fuel : nat) (cloneUrl : Protocol) : M Repo string :=
  rs <- remotes ;;
  match find (fun r => protocol_equals (Protocol_new (url r)) cloneUrl) rs with
  | Some r => ret (remoteName r)
  | None =>
      fun w =>
        match getUniqueRemoteName fuel (repo w) (protocol_owner cloneUrl) with
        | None => (OutOfFuel, w)
        | Some remoteName =>
            (addRemote remoteName (protocol_normalizeUri cloneUrl) ;;
             setConfig ("remote." ++ remoteName ++ "."
                        ++ PullRequestRemoteMetadataKey) "true" ;;
             ret remoteName) w
        end
  end.

Definition createAndCheckout (fuel : nat)
    (pullRequest : Model.IPullRequestModel Protocol) : M Repo unit :=
  localBranchName <- getBranchNameForPullRequest fuel pullRequest ;;
  existing <- getBranch localBranchName ;;
  match existing with
  | Some _ => checkout localBranchName
  | None =>
      remoteName <- createRemote fuel
                      (Model.repositoryCloneUrl (Model.head pullRequest)) ;;
      let ref := Model.ref (Model.head pullRequest) ++ ":" ++ localBranchName in
      fetch remoteName (Some ref) ;;
      checkout localBranchName ;;
      setTrackingBranch localBranchName
        ("refs/remotes/" ++ remoteName ++ "/"
         ++ Model.ref (Model.head pullRequest))
  end ;;
  let prBranchMetadataKey :=
    "branch." ++ localBranchName ++ "." ++ PullRequestMetadataKey in
  setConfig prBranchMetadataKey (buildPullRequestMetadata pullRequest).

Definition fetchAndCreateBranch (remote : Remote Protocol) (branchName : string)
    (pullRequest : Model.IPullRequestModel Protocol) : M Repo unit :=
  let remoteName := remoteName remote in
  let trackedBranchName := "refs/remotes/" ++ remoteName ++ "/" ++ branchName in
  trackedBranch <- getBranch trackedBranchName ;;
  match trackedBranch with
  | Some tracked =>
      createBranch branchName (commit tracked) ;;
      setTrackingBranch branchName trackedBranchName
  | None =>
      throw (Error ("Could not find branch '" ++ trackedBranchName ++ "'."))
  end.

Definition associateBranchWithPullRequest
    (pullRequest : Model.IPullRequestModel Protocol) (branchName : string)
    : M Repo unit :=
  let prConfigKey := "branch." ++ branchName ++ "." ++ PullRequestMetadataKey in
  setConfig prConfigKey (buildPullRequestMetadata pullRequest).

(** [branch.behind !== undefined && branch.behind > 0 && branch.ahead === 0] *)
Definition behind_only (branch : Branch) : bool :=
  match behind branch with
  | Some b =>
      (0 <? b)%Z && match ahead branch with
                    | Some a => (a =? 0)%Z
                    | None => false
                    end
  | None => false
  end.

Definition fetchAndCheckout (remote : Remote Protocol) (branchName : string)
    (pullRequest : Model.IPullRequestModel Protocol) : M Repo unit :=
  let remoteName := remoteName remote in
  fetch remoteName None ;;
  branch <- getBranch branchName ;;
  branch <- match branch with
            | None =>
                fetchAndCreateBranch remote branchName pullRequest ;;
                getBranch branchName
            | Some _ => ret branch
            end ;;
  checkout branchName ;;
  match branch with
  | None => throw TypeError
  | Some b =>
      (if negb (truthy (upstream b)) then
         let trackedBranchName :=
           "refs/remotes/" ++ remoteName ++ "/" ++ branchName in
         setTrackingBranch branchName trackedBranchName
       else ret tt) ;;
      (if behind_only b then run ["pull"] else ret tt) ;;
      associateBranchWithPullRequest pullRequest branchName
  end.

Definition getHeadRemoteForPullRequest
    (githubRepositories : list (GitHubRepository Protocol))
    (pullRequest : Model.IPullRequestModel Protocol)
    : option (Remote Protocol) :=
  option_map remote
    (find (fun g =>
             match gitProtocol (remote g) with
             | Some p =>
                 protocol_equals p
                   (Model.repositoryCloneUrl (Model.head pullRequest))
             | None => false
             end) githubRepositories).

(** The [map] and [filter] over the config entries. *)
Definition branchInfo_of (config : ConfigEntry) : BranchInfo :=
  let matches := RegExp.exec PullRequestBranchRegex (key config) in
  {| bi_branch :=
       match matches with
       | Some m => if negb (List.length m =? 0) then nth 1 m None else None
       | None => None
       end;
     bi_value := value config |}.

Definition branchInfos_of (configs : list ConfigEntry) (k : string)
    : list BranchInfo :=
  filter (fun c => truthy (bi_branch c) && String.eqb (bi_value c) k)
         (map branchInfo_of configs).

(** The filter keeps the entries whose branch is a non-empty string (lemma
    [IndexFacts.truthy_branch] below), so the first of [branchInfos] has a
    branch whenever there is one. *)
Definition getBranchForPullRequestFromExistingRemotes
    (githubRepositories : list (GitHubRepository Protocol))
    (pullRequest : Model.IPullRequestModel Protocol)
    : M Repo (option (RemoteBranch Protocol)) :=
  match getHeadRemoteForPullRequest githubRepositories pullRequest with
  | Some headRemote =>
      ret (Some {| rb_remote := headRemote;
                   rb_branch := Model.ref (Model.head pullRequest) |})
  | None =>
      let k := buildPullRequestMetadata pullRequest in
      configs <- getConfigs ;;
      match branchInfos_of configs k with
      | {| bi_branch := Some branch |} :: _ =>
          found <- getConfig ("branch." ++ branch ++ ".remote") ;;
          rs <- remotes ;;
          match filter (fun r => match found with
                                 | Some n => String.eqb (remoteName r) n
                                 | None => false
                                 end) rs with
          | r :: _ => ret (Some {| rb_remote := r; rb_branch := branch |})
          | [] => ret None
          end
      | _ => ret None
      end
  end.

Definition getPullRequestMergeBase (remote : Remote Protocol)
    (pullRequest : Model.IPullRequestModel Protocol) : M Repo (option string) :=
  mergeBase <- getMergeBase (Model.sha (Model.base pullRequest))
                            (Model.sha (Model.head pullRequest)) ;;
  if truthy mergeBase then ret mergeBase
  else
    let pullrequestHeadRef :=
      "refs/pull/" ++ Number_toString (Model.prNumber pullRequest) ++ "/head" in
    fetch (remoteName remote) (Some pullrequestHeadRef) ;;
    fetch (remoteName remote) (Some (Model.ref (Model.base pullRequest))) ;;
    getMergeBase (Model.sha (Model.base pullRequest))
                 (Model.sha (Model.head pullRequest)).

End Helper.

(* ================================================================== *)
(** * A small engine and a small clone identity *)
(* ================================================================== *)

(** Instances of the two interfaces, on which the helper can be run. *)

Module CloneUrl.

Fixpoint split_on (c : ascii) (s : string) : list string :=
  match s with
  | EmptyString => [EmptyString]
  | String d s' =>
      if Ascii.eqb d c then EmptyString :: split_on c s'
      else match split_on c s' with
           | seg :: segs => String d seg :: segs
           | [] => [String d EmptyString]
           end
  end.

Fixpoint strip_dot_git (s : string) : string :=
  match s with
  | ".git" => EmptyString
  | String c s' => String c (strip_dot_git s')
  | EmptyString => EmptyString
  end.

Definition lower_char (c : ascii) : ascii :=
  let n := nat_of_ascii c in
  if (65 <=? n) && (n <=? 90) then ascii_of_nat (n + 32) else c.

Fixpoint lower (s : string) : string :=
  match s with
  | EmptyString => EmptyString
  | String c s' => String (lower_char c) (lower s')
  end.

(** Modelled from the spec: the clone identity of the host-integration layer
    ([Protocol], whose code is not part of the sources), a value with an
    owner, a repository name and a normalized URL. *)
Record t : Type := {
  host : string;
  owner : string;
  repositoryName : string
}.

(** Modelled from the spec: the constructor of [Protocol] from a URL of the
    shape [scheme://host/owner/repository], with an optional [.git]. *)
Definition of_url (u : string) : t :=
  let segs :=
    match split_on "/" u with
    | _ :: EmptyString :: rest => rest
    | segs => segs
    end in
  {| host := nth 0 segs EmptyString;
     owner := nth 1 segs EmptyString;
     repositoryName := strip_dot_git (nth 2 segs EmptyString) |}.

(** Modelled from the spec: [normalizeUri] of [Protocol], the URL in one
    protocol and without the [.git] suffix. *)
Definition normalizeUri (p : t) : string :=
  "https://" ++ host p ++ "/" ++ owner p ++ "/" ++ repositoryName p.

(** Modelled from the spec: [equals] of [Protocol], which compares the
    normalized URLs without regard to case. *)
Definition equals (p q : t) : bool :=
  String.eqb (lower (normalizeUri p)) (lower (normalizeUri q)).

End CloneUrl.

#[export] Instance CloneUrl_api : ProtocolApi CloneUrl.t := {
  Protocol_new := CloneUrl.of_url;
  protocol_equals := CloneUrl.equals;
  protocol_owner := CloneUrl.owner;
  protocol_repositoryName := CloneUrl.repositoryName;
  protocol_normalizeUri := CloneUrl.normalizeUri
}.

Module Git.

(** Modelled from the spec: the state of the repository engine
    ([Repository], whose code is not part of the sources): the refs with
    their branch data, the remotes, the config entries, the checked-out
    branch, the commits present locally, the merge bases the commit graph
    determines, and what each remote URL serves. *)
Record t : Type := {
  refs : list (string * Branch);
  remotes : list (Remote CloneUrl.t);
  configs : list ConfigEntry;
  HEAD : option string;
  objects : list string;
  mergeBases : list (string * string * string);
  hosted : list (string * list (string * string))
}.

Fixpoint lookup {A : Type} (k : string) (l : list (string * A)) : option A :=
  match l with
  | [] => None
  | (k', a) :: l' => if String.eqb k k' then Some a else lookup k l'
  end.

Fixpoint update {A : Type} (k : string) (a : A) (l : list (string * A))
    : list (string * A) :=
  match l with
  | [] => [(k, a)]
  | (k', a') :: l' =>
      if String.eqb k k' then (k, a) :: l' else (k', a') :: update k a l'
  end.

Definition with_refs (g : t) (rs : list (string * Branch)) : t :=
  {| refs := rs; remotes := remotes g; configs := configs g; HEAD := HEAD g;
     objects := objects g; mergeBases := mergeBases g; hosted := hosted g |}.

Definition with_objects (g : t) (os : list string) : t :=
  {| refs := refs g; remotes := remotes g; configs := configs g; HEAD := HEAD g;
     objects := os; mergeBases := mergeBases g; hosted := hosted g |}.

(** Modelled from the spec: [getBranch(name) -> Branch|null]. *)
Definition getBranch (g : t) (name : string) : option Branch :=
  lookup name (refs g).

(** Modelled from the spec: [getConfig(key) -> string|null]. *)
Definition getConfig (g : t) (k : string) : option string :=
  option_map value (find (fun c => String.eqb (key c) k) (configs g)).

(** Modelled from the spec: [getMergeBase(shaA, shaB) -> string|null]; the
    engine cannot compute it when a commit is not present locally. *)
Definition getMergeBase (g : t) (a b : string) : option string :=
  if existsb (String.eqb a) (objects g) && existsb (String.eqb b) (objects g)
  then option_map snd
         (find (fun e => String.eqb (fst (fst e)) a && String.eqb (snd (fst e)) b)
               (mergeBases g))
  else None.

(** Modelled from the spec: [checkout(name)]; rejected when there is no such
    branch. *)
Definition checkout (name : string) (g : t) : Reply * t :=
  match getBranch g name with
  | Some _ =>
      (Accepted,
       {| refs := refs g; remotes := remotes g; configs := configs g;
          HEAD := Some name; objects := objects g;
          mergeBases := mergeBases g; hosted := hosted g |})
  | None => (Rejected "pathspec did not match", g)
  end.

(** Modelled from the spec: [createBranch(name, commitId)]; rejected when
    the branch exists. *)
Definition createBranch (name : string) (c : option string) (g : t)
    : Reply * t :=
  match getBranch g name with
  | Some _ => (Rejected "branch already exists", g)
  | None =>
      (Accepted,
       with_refs g
         (update name {| commit := c; upstream := None;
                         ahead := None; behind := None |} (refs g)))
  end.

Fixpoint set_entry (k v : string) (cs : list ConfigEntry) : list ConfigEntry :=
  match cs with
  | [] => [{| key := k; value := v |}]
  | c :: cs' =>
      if String.eqb (key c) k then {| key := k; value := v |} :: cs'
      else c :: set_entry k v cs'
  end.

(** Modelled from the spec: [setTrackingBranch(name, upstreamRef)]; the
    remote of an upstream [refs/remotes/<remote>/...] is recorded in the
    config entry [branch.<name>.remote]. *)
Definition setTrackingBranch (name up : string) (g : t) : Reply * t :=
  match getBranch g name with
  | Some b =>
      (Accepted,
       {| refs := update name {| commit := commit b; upstream := Some up;
                                 ahead := ahead b; behind := behind b |}
                         (refs g);
          remotes := remotes g;
          configs :=
            match CloneUrl.split_on "/" up with
            | "refs" :: "remotes" :: rn :: _ =>
                set_entry ("branch." ++ name ++ ".remote") rn (configs g)
            | _ => configs g
            end;
          HEAD := HEAD g; objects := objects g;
          mergeBases := mergeBases g; hosted := hosted g |})
  | None => (Rejected "no such branch", g)
  end.

Definition set_commit (name c : string) (rs : list (string * Branch))
    : list (string * Branch) :=
  match lookup name rs with
  | Some b =>
      update name {| commit := Some c; upstream := upstream b;
                     ahead := ahead b; behind := behind b |} rs
  | None =>
      update name {| commit := Some c; upstream := None;
                     ahead := None; behind := None |} rs
  end.

Definition split_refspec (s : string) : string * option string :=
  match CloneUrl.split_on ":" s with
  | [src; dst] => (src, Some dst)
  | _ => (s, None)
  end.

(** Modelled from the spec: [fetch(remoteName, ref?)].  Without a ref, every
    ref the remote serves is brought to [refs/remotes/<remote>/<ref>]; with
    [src:dst], the local branch [dst] is created or moved to the commit of
    [src], and the remote-tracking ref of [src] follows. *)
Definition fetch (rn : string) (spec : option string) (g : t) : Reply * t :=
  match find (fun r => String.eqb (remoteName r) rn) (remotes g) with
  | None => (Rejected "no such remote", g)
  | Some r =>
      match lookup (url r) (hosted g) with
      | None => (Rejected "could not read from remote repository", g)
      | Some served =>
          match spec with
          | None =>
              (Accepted,
               with_objects
                 (with_refs g
                    (fold_left
                       (fun rs e =>
                          set_commit ("refs/remotes/" ++ rn ++ "/" ++ fst e)
                                     (snd e) rs)
                       served (refs g)))
                 (map snd served ++ objects g)%list)
          | Some s =>
              let (src, dst) := split_refspec s in
              match lookup src served with
              | None => (Rejected "could not find remote ref", g)
              | Some c =>
                  let rs :=
                    set_commit ("refs/remotes/" ++ rn ++ "/" ++ src) c (refs g) in
                  let rs' :=
                    match dst with
                    | Some d => set_commit d c rs
                    | None => rs
                    end in
                  (Accepted, with_objects (with_refs g rs') (c :: objects g))
              end
          end
      end
  end.

(** Modelled from the spec: [run(rawCommand[])]; the one command the helper
    runs is [pull], which moves the checked-out branch to its upstream. *)
Definition run (args : list string) (g : t) : Reply * t :=
  match args, HEAD g with
  | ["pull"], Some h =>
      match getBranch g h with
      | Some b =>
          match upstream b with
          | Some up =>
              match getBranch g up with
              | Some t =>
                  (Accepted,
                   with_refs g
                     (update h {| commit := commit t; upstream := upstream b;
                                  ahead := ahead b; behind := Some 0%Z |}
                             (refs g)))
              | None => (Rejected "no such ref was fetched", g)
              end
          | None => (Rejected "no tracking information", g)
          end
      | None => (Rejected "not on a branch", g)
      end
  | _, _ => (Accepted, g)
  end.

(** Modelled from the spec: [setConfig(key, value)]; one value per key. *)
Definition setConfig (k v : string) (g : t) : Reply * t :=
  (Accepted,
   {| refs := refs g; remotes := remotes g; configs := set_entry k v (configs g);
      HEAD := HEAD g; objects := objects g; mergeBases := mergeBases g;
      hosted := hosted g |}).

(** Modelled from the spec: [addRemote(name, url)]; rejected when a remote
    of that name exists. *)
Definition addRemote (name u : string) (g : t) : Reply * t :=
  if existsb (fun r => String.eqb (remoteName r) name) (remotes g)
  then (Rejected "remote already exists", g)
  else
    (Accepted,
     {| refs := refs g;
        remotes := (remotes g
                    ++ [{| remoteName := name; url := u;
                           gitProtocol := Some (CloneUrl.of_url u) |}])%list;
        configs := configs g; HEAD := HEAD g; objects := objects g;
        mergeBases := mergeBases g; hosted := hosted g |}).

End Git.

#[export] Instance Git_api : RepositoryApi CloneUrl.t Git.t := {
  repo_remotes := Git.remotes;
  repo_getBranch := Git.getBranch;
  repo_getConfig := Git.getConfig;
  repo_getConfigs := Git.configs;
  repo_getMergeBase := Git.getMergeBase;
  repo_checkout := Git.checkout;
  repo_createBranch := Git.createBranch;
  repo_setTrackingBranch := Git.setTrackingBranch;
  repo_fetch := Git.fetch;
  repo_run := Git.run;
  repo_setConfig := Git.setConfig;
  repo_addRemote := Git.addRemote
}.

(** ** The scenario of the specification: PR 42 of octocat/hello-world, from
    the fork forker/hello-world *)

Module Scenario.

Definition base_url : string := "https://bitbucket.org/octocat/hello-world".
Definition fork_url : string := "https://bitbucket.org/forker/hello-world".

Definition pr42 : Model.IPullRequestModel CloneUrl.t :=
  {| Model.prNumber := 42%Z;
     Model.author := {| Model.login := "forker" |};
     Model.head := {| Model.ref := "feature-x"; Model.sha := "h1";
                      Model.repositoryCloneUrl := CloneUrl.of_url fork_url |};
     Model.base := {| Model.ref := "master"; Model.sha := "b1";
                      Model.repositoryCloneUrl := CloneUrl.of_url base_url |} |}.

Definition origin : Remote CloneUrl.t :=
  {| remoteName := "origin"; url := base_url;
     gitProtocol := Some (CloneUrl.of_url base_url) |}.

(** A fresh clone of the base repository: no local branch, the one remote
    [origin]. *)
Definition clone : Git.t :=
  {| Git.refs := [];
     Git.remotes := [origin];
     Git.configs := [];
     Git.HEAD := None;
     Git.objects := ["b1"];
     Git.mergeBases := [("b1", "h1", "b0")];
     Git.hosted :=
       [(base_url, [("master", "b1"); ("refs/pull/42/head", "h1")]);
        (fork_url, [("feature-x", "h1")])] |}.

(** A pull request whose base owner holds a line feed. *)
Definition two_line_owner : Model.IPullRequestModel CloneUrl.t :=
  {| Model.prNumber := 5%Z;
     Model.author := {| Model.login := "forker" |};
     Model.head := Model.head pr42;
     Model.base :=
       {| Model.ref := "master"; Model.sha := "b1";
          Model.repositoryCloneUrl :=
            {| CloneUrl.host := "bitbucket.org";
               CloneUrl.owner := String "a" (String "010" "b");
               CloneUrl.repositoryName := "r" |} |} |}.

(** The clone after PR 42 was checked out once. *)
Definition checked_out : Git.t :=
  repo (snd (createAndCheckout 3 pr42 (start clone))).

(** The clone after a fetch of all the refs of [origin]. *)
Definition fetched : Git.t := snd (Git.fetch "origin" None clone).

(** The clone with a local branch [pr/forker/42] made by hand. *)
Definition with_manual_branch : Git.t :=
  Git.with_refs clone
    [("pr/forker/42", {| commit := Some "b1"; upstream := None;
                         ahead := None; behind := None |})].

(** The clone with [master] checked out, one commit behind its upstream. *)
Definition behind_master : Git.t :=
  {| Git.refs :=
       [("master", {| commit := Some "b0";
                      upstream := Some "refs/remotes/origin/master";
                      ahead := Some 0%Z; behind := Some 1%Z |});
        ("refs/remotes/origin/master",
         {| commit := Some "b1"; upstream := None;
            ahead := None; behind := None |})];
     Git.remotes := [origin];
     Git.configs := [];
     Git.HEAD := Some "master";
     Git.objects := ["b0"; "b1"];
     Git.mergeBases := [];
     Git.hosted := Git.hosted clone |}.

(** The clone with two branches associated with PR 42, of which the second
    only has a remote. *)
Definition two_associations : Git.t :=
  {| Git.refs := [];
     Git.remotes := [origin];
     Git.configs :=
       [{| key := "branch.a.github-pr-owner-number";
           value := "octocat#hello-world#42" |};
        {| key := "branch.b.github-pr-owner-number";
           value := "octocat#hello-world#42" |};
        {| key := "branch.b.remote"; value := "origin" |}];
     Git.HEAD := None;
     Git.objects := ["b1"];
     Git.mergeBases := [];
     Git.hosted := Git.hosted clone |}.

(** A clone that cannot reach its remote, in which the engine reports an
    empty merge base for the two commits of PR 42. *)
Definition offline_empty_merge_base : Git.t :=
  {| Git.refs := [];
     Git.remotes := [origin];
     Git.configs := [];
     Git.HEAD := None;
     Git.objects := ["b1"; "h1"];
     Git.mergeBases := [("b1", "h1", EmptyString)];
     Git.hosted := [] |}.

(** PR 42 as another listing reports it: the same base repository under
    another spelling of its URL, another base ref. *)
Definition pr42_again : Model.IPullRequestModel CloneUrl.t :=
  {| Model.prNumber := 42%Z;
     Model.author := {| Model.login := "someone" |};
     Model.head := Model.head pr42;
     Model.base :=
       {| Model.ref := "develop"; Model.sha := "b9";
          Model.repositoryCloneUrl :=
            CloneUrl.of_url "ssh://bitbucket.org/octocat/hello-world.git" |} |}.

End Scenario.

(* ================================================================== *)
(** * Notions the statements use *)
(* ================================================================== *)

(** No character of [s] is a line terminator. *)
Definition one_line (s : string) : bool :=
  Str.all (fun c => negb (is_line_terminator c)) s.

(** Occurrences of [c] on the first line of [s], that is before its first
    line terminator. *)
Fixpoint first_line_count (c : ascii) (s : string) : nat :=
  match s with
  | EmptyString => 0
  | String d s' =>
      if is_line_terminator d then 0
      else (if Ascii.eqb d c then 1 else 0) + first_line_count c s'
  end.

(** [s] is empty or begins with a line terminator. *)
Definition line_end (s : string) : Prop :=
  match s with
  | EmptyString => True
  | String d _ => is_line_terminator d = true
  end.

(** [s] is made of whole lines: it is empty or ends with a line
    terminator. *)
Fixpoint whole_lines (s : string) : bool :=
  match s with
  | EmptyString => true
  | String c s' =>
      match s' with
      | EmptyString => is_line_terminator c
      | String _ _ => whole_lines s'
      end
  end.

(** From some position of [s] on, two [#] come before the end of the line:
    the pattern of [parsePullRequestMetadata] matches at that position. *)
Fixpoint two_hashes_on_a_line (s : string) : bool :=
  (2 <=? first_line_count "#" s)
  || match s with
     | EmptyString => false
     | String _ s' => two_hashes_on_a_line s'
     end.

(** The pieces of [PullRequestMetadataRegex], from its end. *)
Definition group3 : RegExp.regex := RegExp.RGroup 3 (RegExp.RStar RegExp.ADot).
Definition tail2 : RegExp.regex := RegExp.RSeq (RegExp.lit "#") group3.
Definition tail1 : RegExp.regex :=
  RegExp.RSeq (RegExp.RGroup 2 (RegExp.RStar RegExp.ADot)) tail2.
Definition tail0 : RegExp.regex := RegExp.RSeq (RegExp.lit "#") tail1.

(** The names [getBranchNameForPullRequest] tries, in order: the name itself,
    then the name with the suffixes -1, -2, ... *)
Definition branch_candidate (branchName : string) (k : nat) : string :=
  match k with
  | O => branchName
  | S _ => branchName ++ "-" ++ Number_toString (Z.of_nat k)
  end.

(** The names [getUniqueRemoteName] tries, in order: the name itself, then
    the name followed by 1, 2, ... *)
Definition remote_candidate (name : string) (k : nat) : string :=
  match k with
  | O => name
  | S _ => name ++ Number_toString (Z.of_nat k)
  end.

(** The canonical local branch name of a pull request. *)
Definition canonical_branch_name {Protocol : Type}
    (pullRequest : Model.IPullRequestModel Protocol) : string :=
  "pr/" ++ Model.login (Model.author pullRequest) ++ "/"
  ++ Number_toString (Model.prNumber pullRequest).

(** Some remote bears the name [n]. *)
Definition remote_taken {Protocol : Type} (rs : list (Remote Protocol))
    (n : string) : bool :=
  existsb (fun e => String.eqb (remoteName e) n) rs.

(** The branch name [PullRequestBranchRegex] reads in a config key. *)
Definition branch_of_key (k : string) : option string :=
  bi_branch (branchInfo_of {| key := k; value := EmptyString |}).

(** The config entry [c] associates a branch with the encoded metadata [k]:
    the filter of [getBranchForPullRequestFromExistingRemotes]. *)
Definition associates (k : string) (c : ConfigEntry) : bool :=
  truthy (branch_of_key (key c)) && String.eqb (value c) k.

(** The known repository [g] is the head repository of the pull request. *)
Definition is_head_repository {Protocol : Type} `{ProtocolApi Protocol}
    (headUrl : Protocol) (g : GitHubRepository Protocol) : bool :=
  match gitProtocol (remote g) with
  | Some p => protocol_equals p headUrl
  | None => false
  end.

Definition is_fetch (c : Call) : bool :=
  match c with Fetch _ _ => true | _ => false end.

Definition is_getMergeBase (c : Call) : bool :=
  match c with GetMergeBase _ _ _ => true | _ => false end.

Definition is_run (c : Call) : bool :=
  match c with Run _ => true | _ => false end.

(** The command [run(['pull'])]. *)
Definition pull : Call := Run ["pull"].

(** The lookup of the branch in [fetchAndCheckout], in the repository [r0]
    that the fetch left: the engine reports the branch as [b], at once or
    after the branch was created from its tracked branch.  [r1] is the
    repository then, [lookup] are the calls made, in their order. *)
Definition branch_looked_up {Protocol Repo : Type}
    `{RA : RepositoryApi Protocol Repo}
    (rn branchName : string) (r0 : Repo) (b : Branch) (r1 : Repo)
    (lookup : list Call) : Prop :=
  let tracked := "refs/remotes/" ++ rn ++ "/" ++ branchName in
  (repo_getBranch r0 branchName = Some b /\ r1 = r0 /\
   lookup = [GetBranch branchName (Some b)]) \/
  (exists t rc,
     repo_getBranch r0 branchName = None /\
     repo_getBranch r0 tracked = Some t /\
     repo_createBranch branchName (commit t) r0 = (Accepted, rc) /\
     repo_setTrackingBranch branchName tracked rc = (Accepted, r1) /\
     repo_getBranch r1 branchName = Some b /\
     lookup = [GetBranch branchName None;
               GetBranch tracked (Some t);
               CreateBranch branchName (commit t);
               SetTrackingBranch branchName tracked;
               GetBranch branchName (Some b)]).

(** [fetchAndCheckout] up to its test for a pull: the engine accepted the
    fetch of the remote, reported the branch as [b], accepted the checkout
    of the branch and, when [b] has no upstream, the setting of its tracking
    branch.  [r'] is the repository then, in which the branch is the one
    checked out, and [before] are the calls made, in their order. *)
Definition checked_out_for_pull {Protocol Repo : Type}
    `{RA : RepositoryApi Protocol Repo}
    (rn branchName : string) (r : Repo) (b : Branch) (r' : Repo)
    (before : list Call) : Prop :=
  let tracked := "refs/remotes/" ++ rn ++ "/" ++ branchName in
  exists r0 r1 r2 lookup,
    repo_fetch rn None r = (Accepted, r0) /\
    branch_looked_up rn branchName r0 b r1 lookup /\
    repo_checkout branchName r1 = (Accepted, r2) /\
    ((truthy (upstream b) = true /\ r' = r2 /\
      before = ([Fetch rn None] ++ lookup ++ [Checkout branchName])%list) \/
     (truthy (upstream b) = false /\
      repo_setTrackingBranch branchName tracked r2 = (Accepted, r') /\
      before = ([Fetch rn None] ++ lookup
                ++ [Checkout branchName;
                    SetTrackingBranch branchName tracked])%list)).

(** A call that asks and changes nothing. *)
Definition is_query (c : Call) : bool :=
  match c with
  | GetBranch _ _ | GetConfig _ _ | GetConfigs _ | GetMergeBase _ _ _ => true
  | _ => false
  end.

(* ================================================================== *)
(** * Facts about strings *)
(* ================================================================== *)

Module StrFacts.

Lemma append_nil_r (s : string) : s ++ EmptyString = s.
Proof. induction s as [|c s IH]; simpl; [reflexivity | now rewrite IH]. Qed.

Lemma append_assoc (a b c : string) : (a ++ b) ++ c = a ++ (b ++ c).
Proof. induction a as [|x a IH]; simpl; [reflexivity | now rewrite IH]. Qed.

Lemma length_append (a b : string) :
  String.length (a ++ b) = String.length a + String.length b.
Proof. induction a as [|x a IH]; simpl; [reflexivity | now rewrite IH]. Qed.

Lemma append_inj_l (a b c : string) : a ++ b = a ++ c -> b = c.
Proof.
  induction a as [|x a IH]; simpl; intros E; [exact E|].
  injection E as E. now apply IH.
Qed.

Lemma append_neq_self (a b : string) : b <> EmptyString -> a ++ b <> a.
Proof.
  intros Hb E. apply (f_equal String.length) in E.
  rewrite length_append in E. destruct b; [congruence | simpl in E; lia].
Qed.

Lemma take_append (a b : string) : Str.take (String.length a) (a ++ b) = a.
Proof. induction a as [|x a IH]; simpl; [now destruct b | now rewrite IH]. Qed.

Lemma take_suffix (a b : string) :
  Str.take (String.length (a ++ b) - String.length b) (a ++ b) = a.
Proof.
  rewrite length_append.
  replace (String.length a + String.length b - String.length b)
    with (String.length a) by lia.
  apply take_append.
Qed.

Lemma count_append (c : ascii) (a b : string) :
  Str.count c (a ++ b) = Str.count c a + Str.count c b.
Proof. induction a as [|x a IH]; simpl; [reflexivity | rewrite IH; lia]. Qed.

Lemma all_append (p : ascii -> bool) (a b : string) :
  Str.all p (a ++ b) = Str.all p a && Str.all p b.
Proof.
  induction a as [|x a IH]; simpl; [reflexivity|].
  rewrite IH. now rewrite andb_assoc.
Qed.

Lemma contains_append (c : ascii) (a b : string) :
  Str.contains c (a ++ b) = Str.contains c a || Str.contains c b.
Proof.
  induction a as [|x a IH]; simpl; [reflexivity|].
  rewrite IH. now rewrite orb_assoc.
Qed.

Lemma contains_count (c : ascii) (s : string) :
  Str.contains c s = false <-> Str.count c s = 0.
Proof.
  induction s as [|x s IH]; simpl; [tauto|].
  destruct (Ascii.eqb x c); simpl; [split; [discriminate | lia] | exact IH].
Qed.

Lemma span_all (p : ascii -> bool) (s rest : string) :
  Str.all p s = true ->
  match rest with EmptyString => True | String c _ => p c = false end ->
  Str.span p (s ++ rest) = (s, rest).
Proof.
  intros Hs Hr. induction s as [|x s IH]; simpl in *.
  - destruct rest as [|c rest]; simpl; [reflexivity | now rewrite Hr].
  - apply andb_true_iff in Hs as [Hx Hs]. rewrite Hx, (IH Hs). reflexivity.
Qed.

(** The longest prefix satisfying [p], as a decomposition. *)
Lemma span_spec (p : ascii -> bool) (s : string) :
  exists a b, s = a ++ b /\ Str.all p a = true /\
    match b with EmptyString => True | String c _ => p c = false end.
Proof.
  induction s as [|x s (a & b & E & Ha & Hb)].
  - exists EmptyString, EmptyString. now simpl.
  - destruct (p x) eqn:Hx.
    + exists (String x a), b. simpl. rewrite Hx, Ha, E. now simpl.
    + exists EmptyString, (String x s). now simpl.
Qed.

(** A string with two occurrences of [c] or more splits at its last two. *)
Lemma split_last_two (c : ascii) (s : string) :
  2 <= Str.count c s ->
  exists x y z, s = x ++ String c (y ++ String c z) /\
    Str.contains c y = false /\ Str.contains c z = false.
Proof.
  induction s as [|d s IH]; simpl; [lia|].
  intros H. destruct (le_lt_dec 2 (Str.count c s)) as [H2|H2].
  - destruct (IH H2) as (x & y & z & E & Hy & Hz).
    exists (String d x), y, z. simpl. now rewrite E.
  - destruct (Ascii.eqb_spec d c) as [->|Hd]; [|simpl in H; lia].
    assert (H1 : Str.count c s = 1) by (simpl in H; lia).
    clear H H2 IH. exists EmptyString.
    enough (exists y z, s = y ++ String c z /\
              Str.contains c y = false /\ Str.contains c z = false)
      as (y & z & E & Hy & Hz) by (exists y, z; simpl; now rewrite E).
    induction s as [|e s IH]; simpl in *; [lia|].
    destruct (Ascii.eqb_spec e c) as [->|He].
    + exists EmptyString, s. simpl. repeat split.
      apply contains_count. lia.
    + destruct (IH H1) as (y & z & E & Hy & Hz).
      exists (String e y), z. simpl. rewrite E, Hy, Hz.
      destruct (Ascii.eqb_spec e c); [contradiction | now repeat split].
Qed.

End StrFacts.

(* ================================================================== *)
(** * Facts about the matcher *)
(* ================================================================== *)

Module RegExpFacts.
Import StrFacts.
Import RegExp.

Section Star.

Context {R : Type}.
Implicit Types (a : atom) (k : string -> option R).

(** [star_greedy] fails exactly when the continuation fails after every run
    of matching characters. *)
Lemma star_greedy_none a inp k :
  star_greedy a inp k = None <->
  (forall q s, inp = q ++ s -> Str.all (atom_matches a) q = true -> k s = None).
Proof.
  induction inp as [|c rest IH]; simpl.
  - split.
    + intros Hk q s E _. destruct q; simpl in E; [now subst | discriminate].
    + intros H. now apply (H EmptyString EmptyString).
  - destruct (atom_matches a c) eqn:Hc.
    + assert (Hshift : (forall q s, String c rest = q ++ s ->
                          Str.all (atom_matches a) q = true -> k s = None) ->
                       forall q s, rest = q ++ s ->
                          Str.all (atom_matches a) q = true -> k s = None).
      { intros H q s E Hq. apply (H (String c q) s); simpl; [now rewrite E|].
        now rewrite Hc. }
      destruct (star_greedy a rest k) eqn:Hs.
      * split; [discriminate|]. intros H.
        pose proof (Hshift H) as H'. apply IH in H'. discriminate.
      * split.
        -- intros Hk q s E Hq. destruct q as [|d q]; simpl in E.
           ++ now subst.
           ++ injection E as -> E. simpl in Hq.
              apply andb_true_iff in Hq as [_ Hq].
              destruct IH as [IH _]. now apply (IH eq_refl q s).
        -- intros H. now apply (H EmptyString (String c rest)).
    + split.
      * intros Hk q s E Hq. destruct q as [|d q]; simpl in E; [now subst|].
        injection E as -> E. simpl in Hq. rewrite Hc in Hq. discriminate.
      * intros H. now apply (H EmptyString (String c rest)).
Qed.

(** A successful [star_greedy] stopped after some run of matching
    characters. *)
Lemma star_greedy_some a inp k r :
  star_greedy a inp k = Some r ->
  exists q s, inp = q ++ s /\ Str.all (atom_matches a) q = true /\ k s = Some r.
Proof.
  induction inp as [|c rest IH]; simpl.
  - intros H. now exists EmptyString, EmptyString.
  - destruct (atom_matches a c) eqn:Hc.
    + destruct (star_greedy a rest k) eqn:Hs.
      * intros [= ->]. destruct (IH eq_refl) as (q & s & E & Hq & Hk).
        exists (String c q), s. simpl. now rewrite E, Hc.
      * intros H. now exists EmptyString, (String c rest).
    + intros H. now exists EmptyString, (String c rest).
Qed.

(** The greedy choice: the continuation runs on [s] when it succeeds there
    and fails after every longer run. *)
Lemma star_greedy_longest a p s k r :
  Str.all (atom_matches a) p = true ->
  k s = Some r ->
  (forall q s', s = q ++ s' -> q <> EmptyString ->
     Str.all (atom_matches a) q = true -> k s' = None) ->
  star_greedy a (p ++ s) k = Some r.
Proof.
  intros Hp Hk Hlonger. induction p as [|x p IH]; simpl in *.
  - destruct s as [|c rest]; simpl; [exact Hk|].
    destruct (atom_matches a c) eqn:Hc; [|exact Hk].
    assert (Hn : star_greedy a rest k = None).
    { apply star_greedy_none. intros q s' E Hq.
      apply (Hlonger (String c q) s'); simpl; [now rewrite E | discriminate|].
      now rewrite Hc. }
    now rewrite Hn.
  - apply andb_true_iff in Hp as [Hx Hp]. now rewrite Hx, (IH Hp).
Qed.

End Star.

(** A literal does not match an input shorter than itself. *)
Lemma lit_too_short {R : Type} (l inp : string) cs
    (k : string -> captures -> option R) :
  String.length inp < String.length l -> rmatch (lit l) inp cs k = None.
Proof.
  revert inp. induction l as [|c l IH]; simpl; intros inp H; [lia|].
  destruct inp as [|d inp]; [reflexivity|].
  destruct (Ascii.eqb d c); [|reflexivity]. apply IH. simpl in H. lia.
Qed.

(** A literal matches itself at the head of the input. *)
Lemma lit_prefix {R : Type} (l rest : string) cs
    (k : string -> captures -> option R) :
  rmatch (lit l) (l ++ rest) cs k = k rest cs.
Proof.
  induction l as [|c l IH]; simpl; [reflexivity|].
  now rewrite Ascii.eqb_refl.
Qed.


(** A literal matches itself. *)
Lemma lit_self {R : Type} (l : string) cs
    (k : string -> captures -> option R) :
  rmatch (lit l) l cs k = k EmptyString cs.
Proof.
  induction l as [|c l IH]; simpl; [reflexivity|].
  now rewrite Ascii.eqb_refl.
Qed.

(** ** The pattern of [parsePullRequestMetadata] *)

Lemma metadata_regex_eq :
  PullRequestMetadataRegex = RSeq (RGroup 1 (RStar ADot)) tail0.
Proof. reflexivity. Qed.

Lemma first_line_count_append c q s :
  one_line q = true ->
  first_line_count c (q ++ s) = Str.count c q + first_line_count c s.
Proof.
  unfold one_line. induction q as [|d q IH]; simpl; [reflexivity|].
  intros H. apply andb_true_iff in H as [Hd Hq].
  apply negb_true_iff in Hd. rewrite Hd, (IH Hq). lia.
Qed.

Lemma first_line_count_line_end c s : line_end s -> first_line_count c s = 0.
Proof. destruct s as [|d s]; simpl; [reflexivity | now intros ->]. Qed.

Lemma first_line_count_suffix c q s :
  one_line q = true -> first_line_count c s <= first_line_count c (q ++ s).
Proof. intros H. rewrite (first_line_count_append c q s H). lia. Qed.

Section Fails.

Context {R : Type}.
Implicit Types (k : string -> captures -> option R).

Lemma tail2_fails s cs k :
  first_line_count "#" s = 0 -> rmatch tail2 s cs k = None.
Proof.
  destruct s as [|d s]; cbn; [reflexivity|].
  destruct (Ascii.eqb_spec d "#") as [->|Hd]; [|reflexivity].
  cbn. discriminate.
Qed.

Lemma tail1_fails s cs k :
  first_line_count "#" s = 0 -> rmatch tail1 s cs k = None.
Proof.
  intros H. cbn [tail1 rmatch]. apply star_greedy_none.
  intros q s' E Hq. apply tail2_fails.
  pose proof (first_line_count_suffix "#" q s' Hq) as Hle.
  rewrite <- E in Hle. lia.
Qed.

Lemma tail0_fails s cs k :
  first_line_count "#" s <= 1 -> rmatch tail0 s cs k = None.
Proof.
  destruct s as [|d s]; cbn [tail0 lit rmatch]; [reflexivity|].
  intros H. cbn [atom_matches].
  destruct (Ascii.eqb_spec d "#") as [->|Hd]; [|reflexivity].
  apply tail1_fails. cbn in H. lia.
Qed.

Lemma metadata_regex_fails s cs k :
  first_line_count "#" s <= 1 -> rmatch PullRequestMetadataRegex s cs k = None.
Proof.
  intros H. rewrite metadata_regex_eq. cbn [rmatch]. apply star_greedy_none.
  intros q s' E Hq. apply tail0_fails.
  pose proof (first_line_count_suffix "#" q s' Hq) as Hle.
  rewrite <- E in Hle. lia.
Qed.

End Fails.


Section Exact.

Context {R : Type}.
Implicit Types (k : string -> captures -> option R).

Lemma one_line_not_line_end q s :
  q <> EmptyString -> one_line q = true -> line_end (q ++ s) -> False.
Proof.
  destruct q as [|d q]; [congruence|]. unfold one_line. simpl.
  intros _ H E. rewrite E in H. discriminate.
Qed.

Lemma group3_exact c post cs k r :
  one_line c = true -> line_end post ->
  k post ((3, c) :: cs) = Some r ->
  rmatch group3 (c ++ post) cs k = Some r.
Proof.
  intros Hc Hpost Hk. cbn [group3 rmatch].
  apply star_greedy_longest; [exact Hc | now rewrite take_suffix |].
  intros q s' E Hq Hall. exfalso. rewrite E in Hpost.
  exact (one_line_not_line_end q s' Hq Hall Hpost).
Qed.

Lemma tail2_exact c post cs k r :
  one_line c = true -> line_end post ->
  k post ((3, c) :: cs) = Some r ->
  rmatch tail2 (String "#" (c ++ post)) cs k = Some r.
Proof. intros. cbn [tail2 lit rmatch atom_matches]. cbn. now apply group3_exact. Qed.

Lemma tail1_exact b c post cs k r :
  one_line b = true -> one_line c = true ->
  Str.contains "#" c = false -> line_end post ->
  k post ((3, c) :: (2, b) :: cs) = Some r ->
  rmatch tail1 (b ++ String "#" (c ++ post)) cs k = Some r.
Proof.
  intros Hb Hc Hnc Hpost Hk. cbn [tail1 rmatch].
  apply star_greedy_longest; [exact Hb | | ].
  - rewrite take_suffix. now apply tail2_exact.
  - intros q s' E Hq Hall. apply tail2_fails.
    assert (H1 : first_line_count "#" (String "#" (c ++ post)) = 1).
    { cbn. rewrite (first_line_count_append _ _ _ Hc).
      rewrite (first_line_count_line_end _ _ Hpost).
      apply contains_count in Hnc. lia. }
    rewrite E, (first_line_count_append _ _ _ Hall) in H1.
    destruct q as [|d q]; [congruence|]. simpl in E. injection E as <- _.
    cbn in H1. lia.
Qed.

Lemma tail0_exact b c post cs k r :
  one_line b = true -> one_line c = true ->
  Str.contains "#" c = false -> line_end post ->
  k post ((3, c) :: (2, b) :: cs) = Some r ->
  rmatch tail0 (String "#" (b ++ String "#" (c ++ post))) cs k = Some r.
Proof. intros. cbn [tail0 lit rmatch atom_matches]. cbn. now apply tail1_exact. Qed.

(** On [a#b#c] followed by the end of the line, where [b] and [c] hold no
    [#], the three groups capture [a], [b] and [c]. *)
Lemma metadata_regex_exact a b c post cs k r :
  one_line a = true -> one_line b = true -> one_line c = true ->
  Str.contains "#" b = false -> Str.contains "#" c = false ->
  line_end post ->
  k post ((3, c) :: (2, b) :: (1, a) :: cs) = Some r ->
  rmatch PullRequestMetadataRegex
    (a ++ String "#" (b ++ String "#" (c ++ post))) cs k = Some r.
Proof.
  intros Ha Hb Hc Hnb Hnc Hpost Hk. rewrite metadata_regex_eq. cbn [rmatch].
  apply star_greedy_longest; [exact Ha | | ].
  - rewrite take_suffix. now apply tail0_exact.
  - intros q s' E Hq Hall. apply tail0_fails.
    assert (H2 : first_line_count "#" (String "#" (b ++ String "#" (c ++ post))) = 2).
    { cbn. rewrite (first_line_count_append _ _ _ Hb). cbn.
      rewrite (first_line_count_append _ _ _ Hc).
      rewrite (first_line_count_line_end _ _ Hpost).
      apply contains_count in Hnb, Hnc. lia. }
    rewrite E, (first_line_count_append _ _ _ Hall) in H2.
    destruct q as [|d q]; [congruence|]. simpl in E. injection E as <- _.
    cbn in H2. lia.
Qed.

End Exact.

(** A first line with two [#] or more splits at its last two. *)
Lemma first_line_split s :
  2 <= first_line_count "#" s ->
  exists a b c post,
    s = a ++ String "#" (b ++ String "#" (c ++ post)) /\
    one_line a = true /\ one_line b = true /\ one_line c = true /\
    Str.contains "#" b = false /\ Str.contains "#" c = false /\
    line_end post.
Proof.
  intros H.
  destruct (span_spec (fun c => negb (is_line_terminator c)) s)
    as (line & post & E & Hline & Hpost).
  assert (Hend : line_end post).
  { destruct post; simpl in *; [exact I | now apply negb_false_iff]. }
  rewrite E, (first_line_count_append _ _ _ Hline) in H.
  rewrite (first_line_count_line_end _ _ Hend) in H.
  destruct (split_last_two "#" line) as (x & y & z & El & Hy & Hz); [lia|].
  exists x, y, z, post. subst line.
  unfold one_line in *. rewrite all_append in Hline. simpl in Hline.
  rewrite all_append in Hline. simpl in Hline.
  repeat match goal with
         | H : _ && _ = true |- _ => apply andb_true_iff in H as [? ?]
         end.
  rewrite E, append_assoc. simpl. rewrite append_assoc. simpl.
  repeat split; assumption.
Qed.

End RegExpFacts.

(* ================================================================== *)
(** * Facts about the metadata codec *)
(* ================================================================== *)

Module CodecFacts.
Import StrFacts RegExp RegExpFacts.

Lemma exec_unfold r inp :
  exec r inp =
  match rmatch r inp [] (fun rest cs => Some (match_array r inp rest cs)) with
  | Some m => Some m
  | None => match inp with
            | EmptyString => None
            | String _ rest => exec r rest
            end
  end.
Proof. destruct inp; reflexivity. Qed.

(** The match at the head of an input whose first line has two [#]. *)
Lemma rmatch_metadata_here s :
  2 <= first_line_count "#" s ->
  exists a b c post whole,
    s = a ++ String "#" (b ++ String "#" (c ++ post)) /\
    one_line a = true /\ one_line b = true /\ one_line c = true /\
    Str.contains "#" b = false /\ Str.contains "#" c = false /\
    line_end post /\
    rmatch PullRequestMetadataRegex s []
      (fun rest cs => Some (match_array PullRequestMetadataRegex s rest cs))
    = Some [Some whole; Some a; Some b; Some c].
Proof.
  intros H.
  destruct (first_line_split s H)
    as (a & b & c & post & E & Ha & Hb & Hc & Hnb & Hnc & Hpost).
  exists a, b, c, post.
  exists (Str.take (String.length s - String.length post) s).
  repeat (split; [assumption|]).
  rewrite E at 1.
  apply metadata_regex_exact; try assumption. reflexivity.
Qed.

Lemma exec_metadata_sound v m :
  exec PullRequestMetadataRegex v = Some m ->
  exists pre a b c post whole,
    v = pre ++ a ++ String "#" (b ++ String "#" (c ++ post)) /\
    one_line a = true /\ one_line b = true /\ one_line c = true /\
    Str.contains "#" b = false /\ Str.contains "#" c = false /\
    line_end post /\
    m = [Some whole; Some a; Some b; Some c].
Proof.
  induction v as [|x v IH]; rewrite exec_unfold.
  - now rewrite metadata_regex_fails by (simpl; lia).
  - destruct (le_lt_dec 2 (first_line_count "#" (String x v))) as [H|H].
    + destruct (rmatch_metadata_here _ H)
        as (a & b & c & post & whole & E & Ha & Hb & Hc & Hnb & Hnc & Hpost & Hr).
      rewrite Hr. intros [= <-].
      exists EmptyString, a, b, c, post, whole. simpl. now repeat split.
    + rewrite metadata_regex_fails by lia. intros Hv.
      destruct (IH Hv)
        as (pre & a & b & c & post & whole & E & Ha & Hb & Hc & Hnb & Hnc & Hpost & Hm).
      exists (String x pre), a, b, c, post, whole. simpl. rewrite E.
      now repeat split.
Qed.

Lemma exec_metadata_found pre s :
  2 <= first_line_count "#" s ->
  exec PullRequestMetadataRegex (pre ++ s) <> None.
Proof.
  intros H. induction pre as [|x pre IH]; cbn [append]; rewrite exec_unfold.
  - destruct (rmatch_metadata_here _ H)
      as (a & b & c & post & whole & _ & _ & _ & _ & _ & _ & _ & Hr).
    now rewrite Hr.
  - destruct (rmatch _ _ _ _); [discriminate | exact IH].
Qed.

Lemma is_empty_append_hash a s : Str.is_empty (a ++ String "#" s) = false.
Proof. now destruct a. Qed.

Lemma truthy_some s : truthy (Some s) = negb (Str.is_empty s).
Proof. reflexivity. Qed.

(** The decoder on a match array of the pattern. *)
Lemma parse_of_exec v whole a b c :
  Str.is_empty v = false ->
  exec PullRequestMetadataRegex v = Some [Some whole; Some a; Some b; Some c] ->
  parsePullRequestMetadata (Some v)
  = Some {| owner := a; repositoryName := b; prNumber := Number c |}.
Proof.
  intros Hv He. unfold parsePullRequestMetadata.
  rewrite truthy_some, Hv, He. reflexivity.
Qed.

(** What [parsePullRequestMetadata] returns when it returns a record: the
    input holds [a#b#c] up to the end of a line, where [b] and [c] hold no
    [#], and the record is made of [a], [b] and the number [c] denotes. *)
Lemma parse_sound v m :
  parsePullRequestMetadata (Some v) = Some m ->
  exists pre a b c post,
    v = pre ++ a ++ String "#" (b ++ String "#" (c ++ post)) /\
    one_line a = true /\ one_line b = true /\ one_line c = true /\
    Str.contains "#" b = false /\ Str.contains "#" c = false /\
    line_end post /\
    m = {| owner := a; repositoryName := b; prNumber := Number c |}.
Proof.
  unfold parsePullRequestMetadata. rewrite truthy_some.
  destruct (Str.is_empty v); simpl; [discriminate|].
  destruct (exec PullRequestMetadataRegex v) as [ms|] eqn:He; [|discriminate].
  destruct (exec_metadata_sound v ms He)
    as (pre & a & b & c & post & whole & E & Ha & Hb & Hc & Hnb & Hnc & Hpost & ->).
  simpl. intros [= <-]. exists pre, a, b, c, post. now repeat split.
Qed.

(** The decoder on one line [a#b#c] where [b] and [c] hold no [#]. *)
Lemma parse_line a b c :
  one_line a = true -> one_line b = true -> one_line c = true ->
  Str.contains "#" b = false -> Str.contains "#" c = false ->
  parsePullRequestMetadata (Some (a ++ "#" ++ b ++ "#" ++ c))
  = Some {| owner := a; repositoryName := b; prNumber := Number c |}.
Proof.
  intros Ha Hb Hc Hnb Hnc. simpl.
  set (v := a ++ String "#" (b ++ String "#" c)).
  assert (Hr : rmatch PullRequestMetadataRegex v []
                 (fun rest cs => Some (match_array PullRequestMetadataRegex v rest cs))
               = Some (match_array PullRequestMetadataRegex v EmptyString
                         [(3, c); (2, b); (1, a)])).
  { unfold v at 1. rewrite <- (append_nil_r c) at 1.
    apply metadata_regex_exact; try assumption; reflexivity. }
  apply (parse_of_exec v (Str.take (String.length v - 0) v)).
  - apply is_empty_append_hash.
  - rewrite exec_unfold, Hr. reflexivity.
Qed.

(** The decoder returns a record exactly when two [#] of the input have no
    line terminator between them. *)
Lemma parse_not_null_iff v :
  parsePullRequestMetadata (Some v) <> None <->
  exists x y z, v = x ++ "#" ++ y ++ "#" ++ z /\ one_line y = true.
Proof.
  split.
  - destruct (parsePullRequestMetadata (Some v)) as [m|] eqn:Hp; [|congruence].
    intros _. destruct (parse_sound v m Hp)
      as (pre & a & b & c & post & E & Ha & Hb & Hc & _).
    exists (pre ++ a), b, (c ++ post). split; [|exact Hb].
    rewrite E. simpl. now rewrite append_assoc.
  - intros (x & y & z & E & Hy). simpl in E.
    assert (H2 : 2 <= first_line_count "#" (String "#" (y ++ String "#" z))).
    { cbn. rewrite (first_line_count_append _ _ _ Hy). cbn. lia. }
    pose proof (exec_metadata_found x _ H2) as Hex. rewrite <- E in Hex.
    destruct (exec PullRequestMetadataRegex v) as [ms|] eqn:He; [|congruence].
    destruct (exec_metadata_sound v ms He)
      as (pre & a & b & c & post & whole & E' & _ & _ & _ & _ & _ & _ & ->).
    rewrite (parse_of_exec v whole a b c); [discriminate | | exact He].
    rewrite E. apply is_empty_append_hash.
Qed.

(** ** The match is the leftmost one *)

Lemma whole_lines_cons x pre :
  whole_lines (String x pre) = true ->
  (pre = EmptyString /\ is_line_terminator x = true) \/
  (pre <> EmptyString /\ whole_lines pre = true).
Proof.
  destruct pre as [|y pre]; cbn [whole_lines]; intros H.
  - now left.
  - right. split; [discriminate | exact H].
Qed.

(** The first line of whole lines followed by a text is their own. *)
Lemma first_line_of_whole_lines c pre s :
  whole_lines pre = true -> pre <> EmptyString ->
  first_line_count c (pre ++ s) = first_line_count c pre.
Proof.
  induction pre as [|x pre IH]; [congruence|]. intros Hw _.
  cbn [append first_line_count].
  destruct (is_line_terminator x) eqn:Hx; [reflexivity|].
  destruct (whole_lines_cons _ _ Hw) as [[_ Hx']|[Hne Hw']]; [congruence|].
  now rewrite (IH Hw' Hne).
Qed.

(** The search goes past whole lines none of which holds two [#]. *)
Lemma exec_skips_lines pre s :
  whole_lines pre = true -> two_hashes_on_a_line pre = false ->
  exec PullRequestMetadataRegex (pre ++ s) = exec PullRequestMetadataRegex s.
Proof.
  induction pre as [|x pre IH]; [reflexivity|]. intros Hw Hno.
  cbn [two_hashes_on_a_line] in Hno. apply orb_false_iff in Hno as [Hhere Hno].
  apply Nat.leb_gt in Hhere.
  rewrite exec_unfold, metadata_regex_fails.
  - cbn [append]. apply IH; [|exact Hno].
    destruct (whole_lines_cons _ _ Hw) as [[-> _]|[_ Hw']];
      [reflexivity | exact Hw'].
  - rewrite (first_line_of_whole_lines _ _ _ Hw) by discriminate. lia.
Qed.

(** The decoder on [a#b#c], up to the end of its line, after whole lines
    none of which holds two [#]. *)
Lemma parse_first_matching_line pre a b c post :
  whole_lines pre = true -> two_hashes_on_a_line pre = false ->
  one_line a = true -> one_line b = true -> one_line c = true ->
  Str.contains "#" b = false -> Str.contains "#" c = false ->
  line_end post ->
  parsePullRequestMetadata
    (Some (pre ++ a ++ String "#" (b ++ String "#" (c ++ post))))
  = Some {| owner := a; repositoryName := b; prNumber := Number c |}.
Proof.
  intros Hw Hno Ha Hb Hc Hnb Hnc Hpost.
  set (s := a ++ String "#" (b ++ String "#" (c ++ post))).
  assert (Hr : rmatch PullRequestMetadataRegex s []
                 (fun rest cs => Some (match_array PullRequestMetadataRegex s rest cs))
               = Some (match_array PullRequestMetadataRegex s post
                         [(3, c); (2, b); (1, a)])).
  { unfold s at 1. apply metadata_regex_exact; try assumption; reflexivity. }
  apply (parse_of_exec (pre ++ s)
           (Str.take (String.length s - String.length post) s)).
  - destruct pre; [apply is_empty_append_hash | reflexivity].
  - rewrite (exec_skips_lines pre s Hw Hno), exec_unfold, Hr. reflexivity.
Qed.

(** The match the search returns is the leftmost one: before it come whole
    lines none of which holds two [#]. *)
Lemma exec_metadata_leftmost v m :
  exec PullRequestMetadataRegex v = Some m ->
  exists pre a b c post whole,
    v = pre ++ a ++ String "#" (b ++ String "#" (c ++ post)) /\
    whole_lines pre = true /\ two_hashes_on_a_line pre = false /\
    one_line a = true /\ one_line b = true /\ one_line c = true /\
    Str.contains "#" b = false /\ Str.contains "#" c = false /\
    line_end post /\
    m = [Some whole; Some a; Some b; Some c].
Proof.
  induction v as [|x v IH]; rewrite exec_unfold.
  - now rewrite metadata_regex_fails by (simpl; lia).
  - destruct (le_lt_dec 2 (first_line_count "#" (String x v))) as [H|H].
    + destruct (rmatch_metadata_here _ H)
        as (a & b & c & post & whole & E & Ha & Hb & Hc & Hnb & Hnc & Hpost & Hr).
      rewrite Hr. intros [= <-].
      exists EmptyString, a, b, c, post, whole. now repeat split.
    + rewrite metadata_regex_fails by lia. intros He.
      destruct (IH He)
        as (pre & a & b & c & post & whole & E & Hw & Hno & Ha & Hb & Hc & Hnb
            & Hnc & Hpost & Hm).
      assert (H2 : 2 <= first_line_count "#"
                          (a ++ String "#" (b ++ String "#" (c ++ post)))).
      { rewrite (first_line_count_append _ _ _ Ha). cbn.
        rewrite (first_line_count_append _ _ _ Hb). cbn. lia. }
      assert (Hw' : whole_lines (String x pre) = true).
      { destruct pre as [|y pre]; [|exact Hw]. cbn [whole_lines].
        cbn [append] in E. rewrite E in H. cbn [first_line_count] in H.
        destruct (is_line_terminator x); [reflexivity | lia]. }
      exists (String x pre), a, b, c, post, whole. cbn [append]. rewrite <- E.
      repeat split; try assumption.
      cbn [two_hashes_on_a_line]. rewrite Hno, orb_false_r.
      apply Nat.leb_gt.
      assert (Hx : String x v = String x pre
                                ++ a ++ String "#" (b ++ String "#" (c ++ post)))
        by (cbn [append]; now rewrite <- E).
      rewrite Hx, (first_line_of_whole_lines _ _ _ Hw') in H by discriminate.
      exact H.
Qed.

(** What [parsePullRequestMetadata] returns when it returns a record, with
    the place of the match. *)
Lemma parse_leftmost v m :
  parsePullRequestMetadata (Some v) = Some m ->
  exists pre a b c post,
    v = pre ++ a ++ String "#" (b ++ String "#" (c ++ post)) /\
    whole_lines pre = true /\ two_hashes_on_a_line pre = false /\
    one_line a = true /\ one_line b = true /\ one_line c = true /\
    Str.contains "#" b = false /\ Str.contains "#" c = false /\
    line_end post /\
    m = {| owner := a; repositoryName := b; prNumber := Number c |}.
Proof.
  unfold parsePullRequestMetadata. rewrite truthy_some.
  destruct (Str.is_empty v); simpl; [discriminate|].
  destruct (exec PullRequestMetadataRegex v) as [ms|] eqn:He; [|discriminate].
  destruct (exec_metadata_leftmost v ms He)
    as (pre & a & b & c & post & whole & E & Hw & Hno & Ha & Hb & Hc & Hnb & Hnc
        & Hpost & ->).
  simpl. intros [= <-]. exists pre, a, b, c, post. now repeat split.
Qed.

End CodecFacts.

(* ================================================================== *)
(** * Facts about numbers and their text *)
(* ================================================================== *)

Module NumberFacts.
Import StrFacts StringToNumber.

Lemma span_all_nil (p : ascii -> bool) (s : string) :
  Str.all p s = true -> Str.span p s = (s, EmptyString).
Proof.
  intros H. rewrite <- (append_nil_r s) at 1. now apply span_all.
Qed.

Lemma digits_all (u : Decimal.uint) :
  Str.all is_decimal_digit (NilEmpty.string_of_uint u) = true.
Proof. induction u; simpl; auto. Qed.

Lemma digits_nonempty (u : Decimal.uint) :
  u <> Decimal.Nil -> Str.is_empty (NilEmpty.string_of_uint u) = false.
Proof. destruct u; simpl; congruence. Qed.

Lemma digit_not_whitespace (c : ascii) :
  is_decimal_digit c = true -> is_str_whitespace c = false.
Proof.
  unfold is_decimal_digit, is_str_whitespace. intros H.
  apply andb_true_iff in H as [H1 H2].
  apply Nat.leb_le in H1, H2.
  repeat (apply orb_false_iff; split).
  - apply andb_false_iff. right. apply Nat.leb_gt. lia.
  - apply Nat.eqb_neq. lia.
  - apply Nat.eqb_neq. lia.
Qed.

Lemma trim_left_id c s :
  is_str_whitespace c = false -> trim_left (String c s) = String c s.
Proof. intros H. simpl. now rewrite H. Qed.

Lemma trim_right_id s :
  Str.all (fun c => negb (is_str_whitespace c)) s = true -> trim_right s = s.
Proof.
  induction s as [|c s IH]; simpl; [reflexivity|].
  intros H. apply andb_true_iff in H as [Hc Hs].
  apply negb_true_iff in Hc. now rewrite Hc, (IH Hs).
Qed.

Lemma digits_not_whitespace s :
  Str.all is_decimal_digit s = true ->
  Str.all (fun c => negb (is_str_whitespace c)) s = true.
Proof.
  induction s as [|c s IH]; simpl; [reflexivity|].
  intros H. apply andb_true_iff in H as [Hc Hs].
  now rewrite (digit_not_whitespace c Hc), (IH Hs).
Qed.

Lemma digits_not_infinity s :
  Str.all is_decimal_digit s = true -> String.eqb s "Infinity" = false.
Proof.
  intros H. apply String.eqb_neq. intros ->. discriminate.
Qed.

Lemma digits_value (u : Decimal.uint) :
  decimal_digits_value (NilEmpty.string_of_uint u) = N.of_uint u.
Proof. unfold decimal_digits_value. now rewrite NilEmpty.usu. Qed.

(** A run of digits read as an unsigned decimal literal. *)
Lemma unsigned_digits neg (u : Decimal.uint) :
  u <> Decimal.Nil ->
  str_unsigned_decimal_literal neg (NilEmpty.string_of_uint u)
  = JFinite neg (inject_Z (Z.of_N (N.of_uint u))).
Proof.
  intros Hu. unfold str_unsigned_decimal_literal.
  rewrite (digits_not_infinity _ (digits_all u)).
  rewrite (span_all_nil _ _ (digits_all u)).
  rewrite (digits_nonempty u Hu). simpl.
  rewrite append_nil_r, digits_value.
  unfold scale10. simpl. now rewrite Z.mul_1_r.
Qed.

Lemma non_decimal_digits s :
  Str.all is_decimal_digit s = true -> non_decimal_literal s = None.
Proof.
  destruct s as [|c [|p s]]; simpl; try reflexivity.
  - now destruct c as [[] [] [] [] [] [] [] []].
  - intros H. apply andb_true_iff in H as [_ H]. apply andb_true_iff in H as [H _].
    assert (Hx : forall q, is_decimal_digit q = false -> Ascii.eqb p q = false).
    { intros q Hq. apply Ascii.eqb_neq. intros ->. congruence. }
    rewrite !Hx by reflexivity. simpl. 
    now destruct c as [[] [] [] [] [] [] [] []].
Qed.

Lemma split_sign_digit c s :
  is_decimal_digit c = true -> split_sign (String c s) = (false, String c s).
Proof.
  intros H. unfold split_sign.
  destruct c as [[] [] [] [] [] [] [] []]; try reflexivity; discriminate.
Qed.

Lemma Number_digits (u : Decimal.uint) :
  u <> Decimal.Nil ->
  Number (NilEmpty.string_of_uint u)
  = JFinite false (inject_Z (Z.of_N (N.of_uint u))).
Proof.
  intros Hu. pose proof (digits_all u) as Hd.
  pose proof (unsigned_digits false u Hu) as Hv.
  pose proof (non_decimal_digits _ Hd) as Hn.
  pose proof (digits_not_whitespace _ Hd) as Hw.
  destruct (NilEmpty.string_of_uint u) as [|c s] eqn:E.
  { destruct u; simpl in E; congruence. }
  simpl in Hd. apply andb_true_iff in Hd as [Hc Hd].
  unfold Number, trim.
  rewrite (trim_left_id c s (digit_not_whitespace c Hc)).
  rewrite (trim_right_id _ Hw). cbn [Str.is_empty].
  rewrite Hn. unfold str_decimal_literal.
  now rewrite (split_sign_digit c s Hc).
Qed.

Lemma Number_minus_digits (u : Decimal.uint) :
  u <> Decimal.Nil ->
  Number (String "-" (NilEmpty.string_of_uint u))
  = JFinite true (inject_Z (Z.of_N (N.of_uint u))).
Proof.
  intros Hu. pose proof (digits_all u) as Hd.
  pose proof (unsigned_digits true u Hu) as Hv.
  pose proof (digits_not_whitespace _ Hd) as Hw.
  unfold Number, trim.
  rewrite (trim_left_id "-" _ eq_refl).
  rewrite trim_right_id by (simpl; exact Hw).
  cbn [Str.is_empty non_decimal_literal]. unfold str_decimal_literal.
  cbn [split_sign]. exact Hv.
Qed.

(** [Number(String(n))] is [n], for every integer [n]. *)
Lemma Number_of_toString (n : Z) :
  Number (Number_toString n) = JsNumber_of_Z n.
Proof.
  unfold Number_toString, JsNumber_of_Z. destruct n as [|p|p]; cbn [Z.to_int].
  - reflexivity.
  - cbn [NilZero.string_of_int]. unfold NilZero.string_of_uint.
    pose proof (Unsigned.to_uint_nonnil p) as Hp.
    destruct (Pos.to_uint p) eqn:E; try congruence;
      rewrite (Number_digits _ Hp); rewrite <- E;
      unfold N.of_uint; rewrite Unsigned.of_to; reflexivity.
  - cbn [NilZero.string_of_int]. unfold NilZero.string_of_uint.
    pose proof (Unsigned.to_uint_nonnil p) as Hp.
    destruct (Pos.to_uint p) eqn:E; try congruence;
      rewrite (Number_minus_digits _ Hp); rewrite <- E;
      unfold N.of_uint; rewrite Unsigned.of_to; reflexivity.
Qed.

Lemma JsNumber_of_Z_inj (a b : Z) : JsNumber_of_Z a = JsNumber_of_Z b -> a = b.
Proof.
  unfold JsNumber_of_Z, inject_Z. intros [= Hs Ha].
  destruct (Z.ltb_spec a 0), (Z.ltb_spec b 0); try discriminate; lia.
Qed.

Lemma Number_toString_inj (a b : Z) :
  Number_toString a = Number_toString b -> a = b.
Proof.
  intros E. apply JsNumber_of_Z_inj.
  now rewrite <- !Number_of_toString, E.
Qed.

(** The text of an integer holds digits and at most a sign. *)
Lemma Number_toString_chars (n : Z) :
  Str.contains "#" (Number_toString n) = false /\
  one_line (Number_toString n) = true.
Proof.
  assert (H : forall u, Str.contains "#" (NilEmpty.string_of_uint u) = false /\
                        one_line (NilEmpty.string_of_uint u) = true).
  { unfold one_line. induction u; simpl; auto. }
  unfold Number_toString. destruct n as [|p|p]; cbn [Z.to_int].
  - now split.
  - cbn [NilZero.string_of_int]. unfold NilZero.string_of_uint.
    destruct (Pos.to_uint p) eqn:E; try (now split); rewrite <- E; apply H.
  - cbn [NilZero.string_of_int]. unfold NilZero.string_of_uint.
    destruct (Pos.to_uint p) eqn:E; try (now split); rewrite <- E;
      unfold one_line; simpl; apply H.
Qed.

End NumberFacts.

(* ================================================================== *)
(** * Facts about the naming loops *)
(* ================================================================== *)

Module NamingFacts.
Import StrFacts NumberFacts.

Lemma branch_candidate_inj (b : string) (j k : nat) :
  branch_candidate b j = branch_candidate b k -> j = k.
Proof.
  unfold branch_candidate. destruct j as [|j], k as [|k]; intros E.
  - reflexivity.
  - symmetry in E. now apply append_neq_self in E.
  - now apply append_neq_self in E.
  - apply append_inj_l in E. injection E as E.
    apply Number_toString_inj in E. lia.
Qed.

Lemma remote_candidate_inj (b : string) (j k : nat) :
  remote_candidate b j = remote_candidate b k -> j = k.
Proof.
  unfold remote_candidate. destruct j as [|j], k as [|k]; intros E.
  - reflexivity.
  - symmetry in E. apply append_neq_self in E; [easy|].
    intros E'. apply (f_equal Number) in E'.
    rewrite Number_of_toString in E'. discriminate.
  - apply append_neq_self in E; [easy|].
    intros E'. apply (f_equal Number) in E'.
    rewrite Number_of_toString in E'. discriminate.
  - apply append_inj_l in E. apply Number_toString_inj in E. lia.
Qed.

(** Among the candidates of an injective enumeration, one of the first
    [length names + 1] is not taken, when [names] lists the taken names. *)
Lemma first_free (taken : string -> bool) (cand : nat -> string)
    (names : list string) :
  (forall j k, cand j = cand k -> j = k) ->
  (forall n, taken n = true -> In n names) ->
  exists k, k <= List.length names /\ taken (cand k) = false /\
            forall j, j < k -> taken (cand j) = true.
Proof.
  intros Hinj Hcov.
  assert (Hsearch : forall n,
    (exists k, k < n /\ taken (cand k) = false /\
               forall j, j < k -> taken (cand j) = true) \/
    (forall j, j < n -> taken (cand j) = true)).
  { induction n as [|n [(k & Hk & Hf & Hb)|Hall]].
    - right. lia.
    - left. exists k. repeat split; [lia | assumption | assumption].
    - destruct (taken (cand n)) eqn:Hn.
      + right. intros j Hj. destruct (Nat.eq_dec j n) as [->|]; [assumption|].
        apply Hall. lia.
      + left. exists n. repeat split; [lia | assumption | assumption]. }
  destruct (Hsearch (S (List.length names))) as [(k & Hk & Hf & Hb)|Hall].
  - exists k. repeat split; [lia | assumption | assumption].
  - exfalso.
    assert (Hnd : NoDup (map cand (seq 0 (S (List.length names))))).
    { apply Injective_map_NoDup; [exact Hinj | apply seq_NoDup]. }
    assert (Hincl : incl (map cand (seq 0 (S (List.length names)))) names).
    { intros n Hn. apply in_map_iff in Hn as (j & <- & Hj).
      apply in_seq in Hj. apply Hcov, Hall. lia. }
    pose proof (NoDup_incl_length Hnd Hincl) as Hlen.
    rewrite length_map, length_seq in Hlen. lia.
Qed.

Section Loops.

Context {Protocol Repo : Type}.
Context `{PA : ProtocolApi Protocol} `{RA : RepositoryApi Protocol Repo}.

(** The calls of the branch-name loop from candidate [j] up to [k]. *)
Lemma branch_loop_run (r : Repo) (b : string) (k : nat) :
  repo_getBranch r (branch_candidate b k) = None ->
  (forall j, j < k -> repo_getBranch r (branch_candidate b j) <> None) ->
  forall n j fuel cs, n = k - j -> j <= k -> k - j < fuel ->
  getBranchNameForPullRequest_loop fuel b (branch_candidate b j)
    (Z.of_nat (S j)) {| repo := r; calls := cs |}
  = (Returned (branch_candidate b k),
     {| repo := r;
        calls := cs ++ map (fun i => GetBranch (branch_candidate b i)
                                       (repo_getBranch r (branch_candidate b i)))
                           (seq j (S k - j)) |}).
Proof.
  intros Hfree Htaken. induction n as [|n IH]; intros j fuel cs Hn Hj Hfuel.
  - assert (j = k) by lia. subst j.
    destruct fuel as [|fuel]; [lia|].
    cbn [getBranchNameForPullRequest_loop].
    unfold bind, getBranch, query. cbn [repo calls].
    rewrite Hfree. unfold ret.
    replace (S k - k) with 1 by lia. cbn [seq map]. now rewrite Hfree.
  - destruct fuel as [|fuel]; [lia|].
    cbn [getBranchNameForPullRequest_loop].
    unfold bind at 1. unfold getBranch, query. cbn [repo calls].
    destruct (repo_getBranch r (branch_candidate b j)) as [br|] eqn:Hb.
    2:{ exfalso. apply (Htaken j); [lia | assumption]. }
    replace (Z.of_nat (S j) + 1)%Z with (Z.of_nat (S (S j))) by lia.
    change (b ++ "-" ++ Number_toString (Z.of_nat (S j)))
      with (branch_candidate b (S j)).
    rewrite (IH (S j) fuel) by lia.
    replace (S k - j) with (S (S k - S j)) by lia.
    cbn [seq map]. rewrite Hb, <- app_assoc. reflexivity.
Qed.

Lemma find_existsb {A : Type} (p : A -> bool) (l : list A) :
  (exists a, find p l = Some a) <-> existsb p l = true.
Proof.
  induction l as [|x l IH]; simpl.
  - split; [intros [a H]; discriminate | discriminate].
  - destruct (p x); simpl; [|exact IH]. split; [reflexivity | now exists x].
Qed.

Lemma remote_loop_run (rs : list (Remote Protocol)) (name : string) (k : nat) :
  remote_taken rs (remote_candidate name k) = false ->
  (forall j, j < k -> remote_taken rs (remote_candidate name j) = true) ->
  forall n j fuel, n = k - j -> j <= k -> k - j < fuel ->
  getUniqueRemoteName_loop fuel rs name (remote_candidate name j)
    (Z.of_nat (S j))
  = Some (remote_candidate name k).
Proof.
  intros Hfree Htaken. induction n as [|n IH]; intros j fuel Hn Hj Hfuel.
  - assert (j = k) by lia. subst j.
    destruct fuel as [|fuel]; [lia|]. cbn [getUniqueRemoteName_loop].
    destruct (find _ rs) as [e|] eqn:Hf; [|reflexivity].
    assert (Hex : remote_taken rs (remote_candidate name k) = true).
    { apply find_existsb. now exists e. }
    congruence.
  - destruct fuel as [|fuel]; [lia|]. cbn [getUniqueRemoteName_loop].
    destruct (find _ rs) as [e|] eqn:Hf.
    + replace (Z.of_nat (S j) + 1)%Z with (Z.of_nat (S (S j))) by lia.
      change (name ++ Number_toString (Z.of_nat (S j)))
        with (remote_candidate name (S j)).
      apply IH; lia.
    + exfalso. assert (Ht : remote_taken rs (remote_candidate name j) = true)
        by (apply Htaken; lia).
      apply find_existsb in Ht as [e He].
      unfold remote_taken in He. congruence.
Qed.

(** [getUniqueRemoteName] returns the first candidate that no remote bears,
    as soon as the fuel exceeds the number of remotes. *)
Lemma getUniqueRemoteName_spec (r : Repo) (name : string) :
  exists k,
    k <= List.length (repo_remotes r) /\
    remote_taken (repo_remotes r) (remote_candidate name k) = false /\
    (forall j, j < k ->
       remote_taken (repo_remotes r) (remote_candidate name j) = true) /\
    forall fuel, List.length (repo_remotes r) < fuel ->
      getUniqueRemoteName fuel r name = Some (remote_candidate name k).
Proof.
  destruct (first_free (remote_taken (repo_remotes r)) (remote_candidate name)
              (map remoteName (repo_remotes r)))
    as (k & Hk & Hfree & Htaken).
  - apply remote_candidate_inj.
  - intros n Hn. unfold remote_taken in Hn.
    apply existsb_exists in Hn as (e & He & Hn).
    apply String.eqb_eq in Hn. subst n. now apply in_map.
  - rewrite length_map in Hk. exists k. repeat split; try assumption.
    intros fuel Hfuel. unfold getUniqueRemoteName.
    change name with (remote_candidate name 0) at 2.
    apply (remote_loop_run _ _ k Hfree Htaken k 0 fuel); lia.
Qed.

End Loops.

End NamingFacts.

(* ================================================================== *)
(** * The metadata codec *)
(* ================================================================== *)

Module Codec.
Import StrFacts RegExpFacts CodecFacts NumberFacts.

(** C3, as stated, fails: the base owner and the base repository name of
    [Scenario.two_line_owner] hold no [#], yet decoding the encoded metadata
    yields the owner "b", the text after the line feed, and not the owner
    of the pull request. *)
Lemma roundtrip_breaks_on_line_terminator :
  let pullRequest := Scenario.two_line_owner in
  let base := Model.repositoryCloneUrl (Model.base pullRequest) in
  Str.contains "#" (protocol_owner base) = false /\
  Str.contains "#" (protocol_repositoryName base) = false /\
  parsePullRequestMetadata (Some (buildPullRequestMetadata pullRequest))
  = Some {| owner := "b"; repositoryName := "r";
            prNumber := JsNumber_of_Z 5 |} /\
  parsePullRequestMetadata (Some (buildPullRequestMetadata pullRequest))
  <> Some {| owner := protocol_owner base;
             repositoryName := protocol_repositoryName base;
             prNumber := JsNumber_of_Z (Model.prNumber pullRequest) |}.
Proof.
  cbv zeta. repeat split; try reflexivity. vm_compute. discriminate.
Qed.

Section RoundTrip.

Context {Protocol : Type} `{PA : ProtocolApi Protocol}.

(** C3, amended: for every pull request whose base owner and base repository
    name hold no [#] and no line terminator, decoding the encoded metadata
    yields a record whose owner, repository name and number are those of the
    pull request. *)
Theorem metadata_roundtrip (pullRequest : Model.IPullRequestModel Protocol) :
  let base := Model.repositoryCloneUrl (Model.base pullRequest) in
  Str.contains "#" (protocol_owner base) = false ->
  Str.contains "#" (protocol_repositoryName base) = false ->
  one_line (protocol_owner base) = true ->
  one_line (protocol_repositoryName base) = true ->
  parsePullRequestMetadata (Some (buildPullRequestMetadata pullRequest))
  = Some {| owner := protocol_owner base;
            repositoryName := protocol_repositoryName base;
            prNumber := JsNumber_of_Z (Model.prNumber pullRequest) |}.
Proof.
  intros base _ Hrepo Hline_owner Hline_repo.
  unfold buildPullRequestMetadata. fold base.
  destruct (Number_toString_chars (Model.prNumber pullRequest)) as [Hn Hl].
  rewrite (parse_line _ _ _ Hline_owner Hline_repo Hl Hrepo Hn).
  now rewrite Number_of_toString.
Qed.

End RoundTrip.

Lemma metadata_roundtrip_witness :
  parsePullRequestMetadata (Some (buildPullRequestMetadata Scenario.pr42))
  = Some {| owner := "octocat"; repositoryName := "hello-world";
            prNumber := JsNumber_of_Z 42 |}.
Proof.
  exact (metadata_roundtrip Scenario.pr42 eq_refl eq_refl eq_refl eq_refl).
Defined.

(** C9: [parsePullRequestMetadata] returns [null] on [null], on the empty
    string and on "garbage", and more generally on every string with fewer
    than two [#].  It is a total function: nothing is thrown. *)
Theorem parse_null_on_absent_or_malformed :
  parsePullRequestMetadata None = None /\
  parsePullRequestMetadata (Some EmptyString) = None /\
  parsePullRequestMetadata (Some "garbage") = None /\
  forall s, Str.count "#" s < 2 -> parsePullRequestMetadata (Some s) = None.
Proof.
  repeat split; try reflexivity.
  intros s Hs.
  destruct (parsePullRequestMetadata (Some s)) as [m|] eqn:Hp; [|reflexivity].
  exfalso.
  assert (Hnn : parsePullRequestMetadata (Some s) <> None) by congruence.
  apply parse_not_null_iff in Hnn as (x & y & z & E & _).
  rewrite E in Hs. simpl in Hs.
  rewrite count_append in Hs. simpl in Hs.
  rewrite count_append in Hs. simpl in Hs. lia.
Qed.

Lemma parse_null_on_absent_or_malformed_witness :
  parsePullRequestMetadata (Some "no#number") = None.
Proof.
  apply parse_null_on_absent_or_malformed. simpl. lia.
Defined.

(** C10, as stated, fails: the input below is not empty and holds two [#],
    on two lines, and the decoder returns [null]. *)
Lemma two_hashes_on_two_lines_is_null :
  let s := String "a" (String "#" (String "010" "b#c")) in
  s <> EmptyString /\ Str.count "#" s = 2 /\ parsePullRequestMetadata (Some s) = None.
Proof. repeat split. discriminate. Qed.

(** C10, amended: the decoder returns a record exactly for the inputs in
    which two [#] have no line terminator between them.  The record is read
    from the first line that holds two [#]: its number is the numeric
    conversion of the text between the last [#] of that line and the end of
    the line, its repository name the text between the last two [#] of the
    line, its owner the line up to there.  The number is NaN when the text
    is not a number, as on "a#b#xyz". *)
Theorem parse_not_null_on_two_hashes :
  parsePullRequestMetadata (Some "a#b#xyz")
  = Some {| owner := "a"; repositoryName := "b"; prNumber := JNaN |} /\
  forall v,
    (parsePullRequestMetadata (Some v) <> None <->
     exists x y z, v = x ++ "#" ++ y ++ "#" ++ z /\ one_line y = true) /\
    (forall m, parsePullRequestMetadata (Some v) = Some m <->
       exists pre a b c post,
         v = pre ++ a ++ "#" ++ b ++ "#" ++ c ++ post /\
         whole_lines pre = true /\ two_hashes_on_a_line pre = false /\
         one_line a = true /\ one_line b = true /\ one_line c = true /\
         Str.contains "#" b = false /\ Str.contains "#" c = false /\
         line_end post /\
         m = {| owner := a; repositoryName := b; prNumber := Number c |}).
Proof.
  split; [reflexivity|]. intros v. split; [apply parse_not_null_iff|].
  intros m. split.
  - intros Hm. destruct (parse_leftmost v m Hm)
      as (pre & a & b & c & post & E & H).
    exists pre, a, b, c, post. split; [exact E | exact H].
  - intros (pre & a & b & c & post & -> & Hw & Hno & Ha & Hb & Hc & Hnb & Hnc
            & Hpost & ->).
    exact (parse_first_matching_line pre a b c post
             Hw Hno Ha Hb Hc Hnb Hnc Hpost).
Qed.

Lemma parse_not_null_on_two_hashes_witness :
  let v := "x#1" ++ String "010" ("octocat#hello-world#42"
                                  ++ String "010" "c#d#2") in
  parsePullRequestMetadata (Some v) <> None /\
  parsePullRequestMetadata (Some v)
  = Some {| owner := "octocat"; repositoryName := "hello-world";
            prNumber := Number "42" |}.
Proof.
  destruct parse_not_null_on_two_hashes as [_ H].
  destruct (H ("x#1" ++ String "010" ("octocat#hello-world#42"
                                      ++ String "010" "c#d#2")))
    as [Hiff Hrecord].
  split.
  - apply Hiff.
    exists ("x#1" ++ String "010" "octocat"), "hello-world",
           ("42" ++ String "010" "c#d#2").
    now split.
  - apply Hrecord.
    exists ("x#1" ++ String "010" EmptyString), "octocat", "hello-world", "42",
           (String "010" "c#d#2").
    repeat split.
Defined.

End Codec.

(* ================================================================== *)
(** * Facts about the reverse index over the config entries *)
(* ================================================================== *)

Module IndexFacts.
Import StrFacts RegExp RegExpFacts CodecFacts.

(** On the key [branch.<name>.github-pr-owner-number], the pattern reads
    [name], for every non-empty [name] on one line. *)
Lemma branch_of_key_well_formed (name : string) :
  name <> EmptyString -> one_line name = true ->
  branch_of_key ("branch." ++ name ++ ".github-pr-owner-number") = Some name.
Proof.
  intros Hne Hline. destruct name as [|c name]; [congruence|].
  unfold one_line in Hline. simpl in Hline.
  apply andb_true_iff in Hline as [Hc Hline].
  unfold branch_of_key, branchInfo_of. cbn [key bi_branch].
  rewrite exec_unfold.
  set (suffix := ".github-pr-owner-number").
  set (inp := "branch." ++ String c name ++ suffix).
  assert (Hr : rmatch PullRequestBranchRegex inp []
                 (fun rest cs => Some (match_array PullRequestBranchRegex inp rest cs))
               = Some (match_array PullRequestBranchRegex inp EmptyString
                         [(1, String c name)])).
  { unfold PullRequestBranchRegex, inp. cbn [rmatch].
    rewrite lit_prefix. cbn [append rmatch]. cbn [atom_matches]. rewrite Hc.
    apply star_greedy_longest.
    - exact Hline.
    - fold suffix.
      replace (Str.take _ _) with (String c name).
      2:{ symmetry. exact (take_suffix (String c name) suffix). }
      rewrite lit_self. reflexivity.
    - intros q s' E Hq _. apply lit_too_short.
      apply (f_equal String.length) in E. rewrite length_append in E.
      destruct q; [congruence|]. simpl in E. simpl. lia. }
  rewrite Hr. reflexivity.
Qed.

Lemma find_filter_head {A : Type} (p : A -> bool) (l : list A) :
  find p l = match filter p l with x :: _ => Some x | [] => None end.
Proof.
  induction l as [|x l IH]; simpl; [reflexivity|].
  destruct (p x); [reflexivity | exact IH].
Qed.

(** A branch that is truthy is a string. *)
Lemma truthy_branch (c : ConfigEntry) (k : string) :
  associates k c = true -> exists b, branch_of_key (key c) = Some b /\ b <> EmptyString.
Proof.
  unfold associates. intros H. apply andb_true_iff in H as [H _].
  destruct (branch_of_key (key c)) as [b|]; [|discriminate].
  exists b. split; [reflexivity|]. intros ->. discriminate.
Qed.

(** The head of the filtered entries is the first entry that associates a
    branch with the metadata. *)
Lemma branchInfos_head {B : Type} (configs : list ConfigEntry) (k : string)
    (f : string -> B) (d : B) :
  match branchInfos_of configs k with
  | {| bi_branch := Some branch |} :: _ => f branch
  | _ => d
  end
  = match find (associates k) configs with
    | Some c => match branch_of_key (key c) with
                | Some branch => f branch
                | None => d
                end
    | None => d
    end.
Proof.
  unfold branchInfos_of. induction configs as [|c configs IH]; [reflexivity|].
  cbn [map filter find].
  change (truthy (bi_branch (branchInfo_of c))
          && String.eqb (bi_value (branchInfo_of c)) k)
    with (associates k c).
  destruct (associates k c) eqn:Hc; [|exact IH].
  destruct (truthy_branch c k Hc) as (b & Hb & _).
  change (bi_branch (branchInfo_of c)) with (branch_of_key (key c)) in *.
  unfold branchInfo_of at 1.
  change (bi_branch (branchInfo_of c)) with (branch_of_key (key c)).
  change (match RegExp.exec PullRequestBranchRegex (key c) with
          | Some m => if negb (List.length m =? 0) then nth 1 m None else None
          | None => None
          end) with (branch_of_key (key c)).
  rewrite Hb. reflexivity.
Qed.

End IndexFacts.

(* ================================================================== *)
(** * The workflows *)
(* ================================================================== *)

Module Workflows.
Import StrFacts NamingFacts.

(** Unfolds the monad and the methods of the engine. *)
Ltac unfold_monad :=
  unfold remotes, getBranch, getConfig, getConfigs, getMergeBase, checkout,
    createBranch, setTrackingBranch, fetch, run, setConfig, addRemote,
    query, command, bind, ret, throw, out_of_fuel, start in *;
  cbn [repo calls app fst snd] in *.

(** Case analysis on the replies of the engine to the commands run. *)
Ltac engine_cases :=
  repeat (cbn [repo calls app fst snd] in *;
          match goal with
          | |- context [let (_, _) := ?e in _] =>
              destruct e as [[|?why] ?r] eqn:?
          end);
  cbn [repo calls app fst snd] in *.

Section Engine.

Context {Protocol Repo : Type}.
Context `{PA : ProtocolApi Protocol} `{RA : RepositoryApi Protocol Repo}.

(** C6: [fetchAndCreateBranch] throws an [Error] exactly when there is no
    branch at [refs/remotes/<remote>/<branchName>]; when there is one, it
    creates [branchName] at the commit of that branch, then sets the
    tracking ref of [branchName] to it, and it never fetches.  A command
    the engine rejects is the only other way out. *)
Theorem fetchAndCreateBranch_spec (rm : Remote Protocol) (branchName : string)
    (pullRequest : Model.IPullRequestModel Protocol) (r : Repo) :
  let tracked := "refs/remotes/" ++ remoteName rm ++ "/" ++ branchName in
  let result := fetchAndCreateBranch rm branchName pullRequest (start r) in
  (repo_getBranch r tracked = None <->
   exists message, fst result = Thrown (Error message)) /\
  (repo_getBranch r tracked = None ->
   result = (Thrown (Error ("Could not find branch '" ++ tracked ++ "'.")),
             {| repo := r; calls := [GetBranch tracked None] |})) /\
  (forall trackedBranch, repo_getBranch r tracked = Some trackedBranch ->
   let read := GetBranch tracked (Some trackedBranch) in
   let create := CreateBranch branchName (commit trackedBranch) in
   let track := SetTrackingBranch branchName tracked in
   match repo_createBranch branchName (commit trackedBranch) r with
   | (Rejected why, r1) =>
       result = (Thrown (EngineRejected create why),
                 {| repo := r1; calls := [read; create] |})
   | (Accepted, r1) =>
       match repo_setTrackingBranch branchName tracked r1 with
       | (Rejected why, r2) =>
           result = (Thrown (EngineRejected track why),
                     {| repo := r2; calls := [read; create; track] |})
       | (Accepted, r2) =>
           result = (Returned tt,
                     {| repo := r2; calls := [read; create; track] |})
       end
   end) /\
  filter is_fetch (calls (snd result)) = [].
Proof.
  intros tracked result. subst result. unfold fetchAndCreateBranch.
  fold tracked. unfold_monad.
  destruct (repo_getBranch r tracked) as [tb|] eqn:Hb.
  - split; [|split; [|split]].
    + engine_cases; split; try discriminate; intros [m Hm]; discriminate.
    + discriminate.
    + intros tb' [= <-]. cbn zeta. engine_cases; reflexivity.
    + engine_cases; reflexivity.
  - cbn. repeat split; try discriminate; eauto.
Qed.

(** C8, amended: [getPullRequestMergeBase] asks the engine for the merge
    base and returns the answer when it is a non-empty string; when the
    answer is [null] or empty, it fetches [refs/pull/<prNumber>/head], then
    the base ref, from the given remote, asks once more and returns the
    second answer whatever it is.  The engine is asked at most twice. *)
Theorem getPullRequestMergeBase_spec (rm : Remote Protocol)
    (pullRequest : Model.IPullRequestModel Protocol) (r : Repo) :
  let baseSha := Model.sha (Model.base pullRequest) in
  let headSha := Model.sha (Model.head pullRequest) in
  let headRef :=
    "refs/pull/" ++ Number_toString (Model.prNumber pullRequest) ++ "/head" in
  let baseRef := Model.ref (Model.base pullRequest) in
  let first := repo_getMergeBase r baseSha headSha in
  let ask1 := GetMergeBase baseSha headSha first in
  let fetchHead := Fetch (remoteName rm) (Some headRef) in
  let fetchBase := Fetch (remoteName rm) (Some baseRef) in
  let result := getPullRequestMergeBase rm pullRequest (start r) in
  (truthy first = true ->
   result = (Returned first, {| repo := r; calls := [ask1] |})) /\
  (truthy first = false ->
   match repo_fetch (remoteName rm) (Some headRef) r with
   | (Rejected why, r1) =>
       result = (Thrown (EngineRejected fetchHead why),
                 {| repo := r1; calls := [ask1; fetchHead] |})
   | (Accepted, r1) =>
       match repo_fetch (remoteName rm) (Some baseRef) r1 with
       | (Rejected why, r2) =>
           result = (Thrown (EngineRejected fetchBase why),
                     {| repo := r2; calls := [ask1; fetchHead; fetchBase] |})
       | (Accepted, r2) =>
           let second := repo_getMergeBase r2 baseSha headSha in
           result = (Returned second,
                     {| repo := r2;
                        calls := [ask1; fetchHead; fetchBase;
                                  GetMergeBase baseSha headSha second] |})
       end
   end) /\
  List.length (filter is_getMergeBase (calls (snd result))) <= 2.
Proof.
  intros baseSha headSha headRef baseRef first ask1 fetchHead fetchBase result.
  subst result ask1 fetchHead fetchBase. unfold getPullRequestMergeBase.
  fold baseSha headSha headRef baseRef. unfold_monad. fold first.
  destruct (truthy first) eqn:Ht.
  - repeat split; try discriminate. simpl. lia.
  - split; [discriminate|]. split.
    + intros _. engine_cases; reflexivity.
    + engine_cases; simpl; lia.
Qed.


Lemma behind_only_spec (b : Branch) :
  behind_only b = true <->
  (exists n, behind b = Some n /\ (0 < n)%Z) /\ ahead b = Some 0%Z.
Proof.
  unfold behind_only. destruct (behind b) as [n|], (ahead b) as [a|]; split.
  - intros H. apply andb_true_iff in H as [Hn Ha].
    apply Z.ltb_lt in Hn. apply Z.eqb_eq in Ha. subst a.
    split; [now exists n | reflexivity].
  - intros [(m & [= <-] & Hm) [= ->]]. apply andb_true_iff.
    split; [now apply Z.ltb_lt | reflexivity].
  - intros H. apply andb_true_iff in H as [_ H]. discriminate.
  - intros [_ H]. discriminate.
  - discriminate.
  - intros [(m & H & _) _]. discriminate.
  - discriminate.
  - intros [_ H]. discriminate.
Qed.

(** Case analysis on the answers and the replies of the engine and on the
    tests of the helper. *)
Ltac helper_cases :=
  repeat (cbn [repo calls app fst snd] in *;
          match goal with
          | |- context [let (_, _) := ?e in _] =>
              destruct e as [[|?why] ?r] eqn:?
          | |- context [match repo_getBranch ?r ?n with _ => _ end] =>
              destruct (repo_getBranch r n) as [?b|] eqn:?
          | |- context [if ?c then _ else _] => destruct c eqn:?
          end);
  cbn [repo calls app fst snd] in *.

(** The replies and the answers of one run agree. *)
Ltac agree :=
  repeat match goal with
         | H : (_, _) = (_, _) |- _ => inversion H; subst; clear H
         | H : Some _ = Some _ |- _ => inversion H; subst; clear H
         | H : ?x = ?y, H' : ?x = ?z |- _ => rewrite H in H'
         end.

(** The replies and the answers of one run make up the way to a goal. *)
Ltac reach :=
  repeat first
    [ reflexivity
    | eassumption
    | match goal with
      | |- (exists n, behind _ = Some n /\ _) /\ _ =>
          apply behind_only_spec; eassumption
      | |- exists _, _ => eexists
      | |- _ /\ _ => split
      | |- _ \/ _ => first [left; solve [reach] | right; solve [reach]]
      end ].

(** C7: in [fetchAndCheckout], [pull] is run if and only if the branch was
    checked out (after the fetch of the remote, the lookup of the branch
    and, when need be, its creation and the setting of its tracking branch,
    all accepted) and the branch, as [getBranch] reported it, is behind its
    upstream ([behind > 0]) with no commit of its own ([ahead] is 0).  The
    pull then comes right after these calls, the checkout of the branch
    among them, and runs in the repository they left.  In every other case
    (commits ahead, none behind, counts unknown) the association is written
    with no [pull], and no [pull] is run when a step before the test fails;
    [pull] is the one command the operation runs, once at most. *)
Theorem fetchAndCheckout_pull (rm : Remote Protocol) (branchName : string)
    (pullRequest : Model.IPullRequestModel Protocol) (r : Repo) :
  let rn := remoteName rm in
  let result := fetchAndCheckout rm branchName pullRequest (start r) in
  let trace := calls (snd result) in
  let association :=
    SetConfig ("branch." ++ branchName ++ "." ++ PullRequestMetadataKey)
      (buildPullRequestMetadata pullRequest) in
  let behind_only_of (b : Branch) :=
    (exists n, behind b = Some n /\ (0 < n)%Z) /\ ahead b = Some 0%Z in
  (In pull trace <->
   exists b r' before,
     checked_out_for_pull rn branchName r b r' before /\ behind_only_of b) /\
  (forall b r' before,
     checked_out_for_pull rn branchName r b r' before ->
     (behind_only_of b ->
      trace = (before ++ pull :: match fst (repo_run ["pull"] r') with
                                 | Accepted => [association]
                                 | Rejected _ => []
                                 end)%list) /\
     (~ behind_only_of b ->
      trace = (before ++ [association])%list /\ ~ In pull trace)) /\
  List.length (filter is_run trace) <= 1.
Proof.
  intros rn result trace association behind_only_of.
  subst trace result association behind_only_of rn.
  unfold checked_out_for_pull, branch_looked_up.
  unfold fetchAndCheckout, fetchAndCreateBranch, associateBranchWithPullRequest.
  unfold_monad. helper_cases.
  all: repeat match goal with
              | H : negb _ = true |- _ => apply negb_true_iff in H
              | H : negb _ = false |- _ => apply negb_false_iff in H
              end.
  all: split; [|split]; [ | | simpl; lia].
  all: try solve [split;
                  [intros Hin; exfalso; simpl in Hin; unfold pull in Hin;
                   intuition discriminate
                  | intros (b' & r' & before & (r0' & r1' & r2' & lookup & Hf
                            & [(Hb1 & -> & ->)|(t' & rc' & Hb1 & Ht & Hc & Hs & Hb2 & ->)]
                            & Hco & [(Hu & -> & ->)|(Hu & Hst & ->)]) & Hbehind);
                    exfalso; apply behind_only_spec in Hbehind; agree;
                    congruence]].
  all: try solve [split; [intros _; reach | intros _; simpl; unfold pull; tauto]].
  all: try solve [intros b' r' before (r0' & r1' & r2' & lookup & Hf
                            & [(Hb1 & -> & ->)|(t' & rc' & Hb1 & Ht & Hc & Hs & Hb2 & ->)]
                            & Hco & [(Hu & -> & ->)|(Hu & Hst & ->)]);
                  agree; try congruence;
                  split; intros Hbehind;
                  first
                    [ match goal with
                      | H : repo_run _ _ = _ |- _ = _ => rewrite H
                      end; reflexivity
                    | exfalso; apply behind_only_spec in Hbehind; congruence
                    | exfalso; apply Hbehind; apply behind_only_spec; assumption
                    | split; [reflexivity
                             | simpl; unfold pull; intuition discriminate] ]].
Qed.

(** C5: when [names] are the names of the existing branches,
    [getBranchNameForPullRequest] returns a name that is not among them: the
    first of the canonical name [pr/<login>/<prNumber>] and its variants
    suffixed -1, -2, ... that no branch bears.  The canonical name is
    returned unchanged when no branch bears it.  The loop ends as soon as
    the fuel exceeds the number of names. *)
Theorem getBranchNameForPullRequest_spec (names : list string)
    (pullRequest : Model.IPullRequestModel Protocol) (r : Repo) :
  (forall n, repo_getBranch r n <> None <-> In n names) ->
  exists k,
    let canonical := canonical_branch_name pullRequest in
    let name := branch_candidate canonical k in
    k <= List.length names /\
    ~ In name names /\
    (forall j, j < k -> In (branch_candidate canonical j) names) /\
    (~ In canonical names -> name = canonical) /\
    forall fuel, List.length names < fuel ->
      getBranchNameForPullRequest fuel pullRequest (start r)
      = (Returned name,
         {| repo := r;
            calls := map (fun i =>
                            GetBranch (branch_candidate canonical i)
                              (repo_getBranch r (branch_candidate canonical i)))
                         (seq 0 (S k)) |}).
Proof.
  intros Hnames.
  set (canonical := canonical_branch_name pullRequest).
  set (taken := fun n => match repo_getBranch r n with
                         | Some _ => true
                         | None => false
                         end).
  destruct (first_free taken (branch_candidate canonical) names)
    as (k & Hk & Hfree & Htaken).
  - apply branch_candidate_inj.
  - intros n Hn. apply Hnames. unfold taken in Hn.
    destruct (repo_getBranch r n); [discriminate | discriminate Hn].
  - assert (Hnone : repo_getBranch r (branch_candidate canonical k) = None).
    { unfold taken in Hfree.
      destruct (repo_getBranch r (branch_candidate canonical k));
        [discriminate | reflexivity]. }
    assert (Hsome : forall j, j < k ->
              repo_getBranch r (branch_candidate canonical j) <> None).
    { intros j Hj. specialize (Htaken j Hj). unfold taken in Htaken.
      destruct (repo_getBranch r (branch_candidate canonical j));
        [discriminate | discriminate Htaken]. }
    exists k. cbn zeta. repeat split.
    + exact Hk.
    + intros Hin. apply Hnames in Hin. contradiction.
    + intros j Hj. apply Hnames. now apply Hsome.
    + intros Hcanon. destruct k as [|k]; [reflexivity|].
      exfalso. apply Hcanon. apply Hnames. apply (Hsome 0). lia.
    + intros fuel Hfuel.
      assert (Hrun := branch_loop_run r canonical k Hnone Hsome k 0 fuel []
                        ltac:(lia) ltac:(lia) ltac:(lia)).
      replace (S k - 0) with (S k) in Hrun by lia. exact Hrun.
Qed.

(** The branch-name loop leaves the repository as it is and returns a name
    that no branch bears. *)
Lemma branch_loop_returns (fuel : nat) (b res : string) (n : Z)
    (w w' : World Repo) (name : string) :
  getBranchNameForPullRequest_loop fuel b res n w = (Returned name, w') ->
  repo w' = repo w /\ repo_getBranch (repo w) name = None.
Proof.
  revert res n w. induction fuel as [|fuel IH]; intros res n w; simpl.
  - discriminate.
  - unfold_monad.
    destruct (repo_getBranch (repo w) res) as [br|] eqn:Hb.
    + intros H. apply IH in H. exact H.
    + intros [= <- <-]. now split.
Qed.

(** The branch [createAndCheckout] tests for is never there: every
    completed run went through the creation of a remote and fetched the head
    ref into a branch that did not exist. *)
Theorem createAndCheckout_always_fetches (fuel : nat)
    (pullRequest : Model.IPullRequestModel Protocol) (r : Repo) :
  let result := createAndCheckout fuel pullRequest (start r) in
  fst result = Returned tt ->
  exists remoteName name,
    repo_getBranch r name = None /\
    In (Fetch remoteName
          (Some (Model.ref (Model.head pullRequest) ++ ":" ++ name)))
       (calls (snd result)).
Proof.
  intros result. destruct result as [out w'] eqn:Hres. subst result.
  cbn [fst snd]. intros ->. revert Hres. unfold createAndCheckout.
  unfold bind at 1.
  destruct (getBranchNameForPullRequest fuel pullRequest (start r))
    as [[name| |] w1] eqn:Hloop; try discriminate.
  apply branch_loop_returns in Hloop as [Hrepo Hnone]. cbn [start repo] in *.
  unfold bind at 1. unfold getBranch at 1, query. rewrite Hrepo, Hnone.
  unfold bind at 1. unfold bind at 1.
  destruct (createRemote fuel _ _) as [[rn| |] w2] eqn:Hremote;
    try discriminate.
  unfold_monad. intros Hdone. exists rn, name. split; [exact Hnone|].
  revert Hdone. engine_cases; try discriminate.
  intros [= <-]. cbn [calls]. rewrite !in_app_iff. simpl. tauto.
Qed.

(** C2, amended: [getBranchForPullRequestFromExistingRemotes] returns the
    remote of the first known repository whose protocol identity equals the
    clone URL of the head, with the head ref, whatever the config holds.
    When there is none, it looks at the first config entry only whose key
    matches [branch.<name>.github-pr-owner-number] and whose value is the
    encoded metadata of the pull request: it returns the first remote named
    as the entry [branch.<name>.remote] says, with [name], and [null] when
    no remote bears that name, whatever the later entries hold; it returns
    [null] when no entry matches.  The repository is not changed. *)
Theorem getBranchForPullRequestFromExistingRemotes_spec
    (githubRepositories : list (GitHubRepository Protocol))
    (pullRequest : Model.IPullRequestModel Protocol) (r : Repo) :
  let headUrl := Model.repositoryCloneUrl (Model.head pullRequest) in
  let k := buildPullRequestMetadata pullRequest in
  let result :=
    getBranchForPullRequestFromExistingRemotes githubRepositories pullRequest
      (start r) in
  (forall name, name <> EmptyString -> one_line name = true ->
     branch_of_key ("branch." ++ name ++ ".github-pr-owner-number") = Some name) /\
  (forall g, find (is_head_repository headUrl) githubRepositories = Some g ->
     result = (Returned (Some {| rb_remote := remote g;
                                 rb_branch := Model.ref (Model.head pullRequest) |}),
               start r)) /\
  (find (is_head_repository headUrl) githubRepositories = None ->
     repo (snd result) = r /\
     (find (associates k) (repo_getConfigs r) = None ->
        fst result = Returned None) /\
     (forall c, find (associates k) (repo_getConfigs r) = Some c ->
        exists branch,
          branch_of_key (key c) = Some branch /\
          fst result
          = Returned
              match repo_getConfig r ("branch." ++ branch ++ ".remote") with
              | Some n =>
                  option_map
                    (fun rm => {| rb_remote := rm; rb_branch := branch |})
                    (find (fun rm => String.eqb (remoteName rm) n)
                          (repo_remotes r))
              | None => None
              end)).
Proof.
  intros headUrl k result. subst result.
  unfold getBranchForPullRequestFromExistingRemotes,
    getHeadRemoteForPullRequest.
  fold headUrl k. fold (is_head_repository headUrl).
  split; [exact IndexFacts.branch_of_key_well_formed|]. split.
  - intros g ->. reflexivity.
  - intros ->. cbn [option_map]. unfold_monad.
    rewrite (IndexFacts.branchInfos_head (repo_getConfigs r) k).
    destruct (find (associates k) (repo_getConfigs r)) as [c|] eqn:Hc.
    + destruct (IndexFacts.truthy_branch c k) as (b & Hb & _).
      { now apply find_some in Hc. }
      rewrite Hb. cbn [repo calls]. split; [|split].
      * now destruct (filter _ (repo_remotes r)).
      * discriminate.
      * intros c' [= <-]. exists b. split; [exact Hb|].
        destruct (repo_getConfig r ("branch." ++ b ++ ".remote")) as [n|].
        -- rewrite (IndexFacts.find_filter_head
                      (fun rm : Remote Protocol => String.eqb (remoteName rm) n)).
           now destruct (filter _ (repo_remotes r)).
        -- replace (filter _ (repo_remotes r)) with (@nil (Remote Protocol))
             by (clear; now induction (repo_remotes r)).
           reflexivity.
    + repeat split; discriminate.
Qed.

End Engine.

End Workflows.

(* ================================================================== *)
(** * The workflows on the scenario of the specification *)
(* ================================================================== *)

Module OnScenario.
Import Scenario Workflows.

(** The refs the small engine knows are those it lists. *)
Lemma getBranch_listed (g : Git.t) (n : string) :
  repo_getBranch g n <> None <-> In n (map fst (Git.refs g)).
Proof.
  cbn [repo_getBranch Git_api]. unfold Git.getBranch.
  induction (Git.refs g) as [|[k b] l IH]; simpl; [tauto|].
  destruct (String.eqb_spec n k) as [->|Hn].
  - split; [tauto | discriminate].
  - rewrite IH. split; [tauto | intros [E|H]; [congruence | exact H]].
Qed.

(** C1 fails on the code.  After a first [createAndCheckout] of PR 42 in a
    fresh clone, the branch [pr/forker/42] exists; a second call, with
    nothing changed in between, does not check that branch out: it fetches
    again, into a new branch [pr/forker/42-1], and leaves the repository
    with one branch and one association more than a single call does.  The
    same happens when [pr/forker/42] was made by hand: a remote is created
    and the head ref is fetched. *)
Theorem createAndCheckout_twice_fetches_twice :
  let first := createAndCheckout 3 pr42 (start clone) in
  let second := createAndCheckout 3 pr42 (start (repo (snd first))) in
  let manual := createAndCheckout 3 pr42 (start with_manual_branch) in
  fst first = Returned tt /\
  fst second = Returned tt /\
  map fst (Git.refs (repo (snd first)))
  = ["refs/remotes/forker/feature-x"; "pr/forker/42"] /\
  filter is_fetch (calls (snd second))
  = [Fetch "forker" (Some "feature-x:pr/forker/42-1")] /\
  map fst (Git.refs (repo (snd second)))
  = ["refs/remotes/forker/feature-x"; "pr/forker/42"; "pr/forker/42-1"] /\
  Git.HEAD (repo (snd second)) = Some "pr/forker/42-1" /\
  map key (Git.configs (repo (snd second)))
  = ["remote.forker.github-pr-remote";
     "branch.pr/forker/42.remote";
     "branch.pr/forker/42.github-pr-owner-number";
     "branch.pr/forker/42-1.remote";
     "branch.pr/forker/42-1.github-pr-owner-number"] /\
  repo (snd second) <> repo (snd first) /\
  fst manual = Returned tt /\
  filter (fun c => match c with
                   | Fetch _ _ | AddRemote _ _ | Checkout _ => true
                   | _ => false
                   end) (calls (snd manual))
  = [AddRemote "forker" "https://bitbucket.org/forker/hello-world";
     Fetch "forker" (Some "feature-x:pr/forker/42-1");
     Checkout "pr/forker/42-1"].
Proof.
  cbv zeta. repeat split; try (vm_compute; reflexivity).
  intros E. apply (f_equal Git.HEAD) in E. vm_compute in E. discriminate.
Qed.

(** C2, as stated, fails: in [two_associations] no known remote is the head
    repository, the branch [b] is associated with PR 42 and its remote
    [origin] exists, yet the lookup returns [null], because the entry of
    the branch [a], which has no remote, comes first. *)
Lemma later_association_is_ignored :
  let known := [{| remote := origin |}] in
  let result :=
    getBranchForPullRequestFromExistingRemotes known pr42
      (start two_associations) in
  find (is_head_repository (Model.repositoryCloneUrl (Model.head pr42))) known
  = None /\
  repo_getConfig two_associations "branch.b.github-pr-owner-number"
  = Some (buildPullRequestMetadata pr42) /\
  repo_getConfig two_associations "branch.b.remote" = Some "origin" /\
  In origin (repo_remotes two_associations) /\
  fst result = Returned None.
Proof. cbv zeta. repeat split. now left. Qed.

(** C8, as stated, fails: in [offline_empty_merge_base] the first answer of
    the engine is not [null], it is the empty string, and the helper does
    not return it: it fetches, and here throws the rejection of the
    fetch. *)
Lemma empty_merge_base_is_not_returned :
  let result :=
    getPullRequestMergeBase origin pr42 (start offline_empty_merge_base) in
  repo_getMergeBase offline_empty_merge_base "b1" "h1" = Some EmptyString /\
  fst result
  = Thrown (EngineRejected (Fetch "origin" (Some "refs/pull/42/head"))
                           "could not read from remote repository") /\
  calls (snd result)
  = [GetMergeBase "b1" "h1" (Some EmptyString);
     Fetch "origin" (Some "refs/pull/42/head")].
Proof. cbv zeta. repeat split. Qed.

(** ** The theorems at work *)

Lemma getBranchNameForPullRequest_spec_witness :
  exists name,
    ~ In name (map fst (Git.refs checked_out)) /\
    fst (getBranchNameForPullRequest 3 pr42 (start checked_out))
    = Returned name.
Proof.
  destruct (getBranchNameForPullRequest_spec
              (map fst (Git.refs checked_out)) pr42 checked_out
              (getBranch_listed checked_out))
    as (k & _ & Hfresh & _ & _ & Hrun).
  exists (branch_candidate (canonical_branch_name pr42) k).
  split; [exact Hfresh|].
  rewrite (Hrun 3); [reflexivity | vm_compute; lia].
Defined.


Lemma fetchAndCreateBranch_spec_witness :
  fetchAndCreateBranch origin "master" pr42 (start clone)
  = (Thrown (Error "Could not find branch 'refs/remotes/origin/master'."),
     {| repo := clone;
        calls := [GetBranch "refs/remotes/origin/master" None] |}) /\
  fst (fetchAndCreateBranch origin "master" pr42 (start fetched))
  = Returned tt.
Proof.
  split.
  - destruct (fetchAndCreateBranch_spec origin "master" pr42 clone)
      as (_ & Habsent & _).
    exact (Habsent eq_refl).
  - destruct (fetchAndCreateBranch_spec origin "master" pr42 fetched)
      as (_ & _ & Hpresent & _).
    specialize (Hpresent {| commit := Some "b1"; upstream := None;
                            ahead := None; behind := None |} eq_refl).
    lazy in Hpresent. exact (f_equal fst Hpresent).
Defined.

Lemma fetchAndCheckout_pull_witness :
  In pull
     (calls (snd (fetchAndCheckout origin "master" pr42 (start behind_master)))).
Proof.
  destruct (fetchAndCheckout_pull origin "master" pr42 behind_master)
    as (Hiff & _ & _).
  apply Hiff.
  exists {| commit := Some "b0"; upstream := Some "refs/remotes/origin/master";
            ahead := Some 0%Z; behind := Some 1%Z |}.
  exists (snd (Git.checkout "master"
                 (snd (Git.fetch "origin" None behind_master)))).
  eexists. split.
  - exists (snd (Git.fetch "origin" None behind_master)).
    exists (snd (Git.fetch "origin" None behind_master)).
    exists (snd (Git.checkout "master"
                   (snd (Git.fetch "origin" None behind_master)))).
    eexists. split; [reflexivity|]. split.
    + left. split; [reflexivity|]. split; reflexivity.
    + split; [reflexivity|]. left. split; [reflexivity|]. split; reflexivity.
  - split; [|reflexivity]. exists 1%Z. split; [reflexivity | lia].
Defined.

Lemma getPullRequestMergeBase_spec_witness :
  fst (getPullRequestMergeBase origin pr42 (start clone)) = Returned (Some "b0").
Proof.
  destruct (getPullRequestMergeBase_spec origin pr42 clone) as (_ & Hretry & _).
  specialize (Hretry eq_refl). lazy in Hretry. exact (f_equal fst Hretry).
Defined.

Lemma getBranchForPullRequestFromExistingRemotes_spec_witness :
  exists branch,
    branch_of_key "branch.pr/forker/42.github-pr-owner-number" = Some branch /\
    fst (getBranchForPullRequestFromExistingRemotes [] pr42 (start checked_out))
    = Returned
        match repo_getConfig checked_out ("branch." ++ branch ++ ".remote") with
        | Some n =>
            option_map (fun rm => {| rb_remote := rm; rb_branch := branch |})
              (find (fun rm => String.eqb (remoteName rm) n)
                    (repo_remotes checked_out))
        | None => None
        end.
Proof.
  destruct (getBranchForPullRequestFromExistingRemotes_spec [] pr42 checked_out)
    as (_ & _ & Hconfig).
  destruct (Hconfig eq_refl) as (_ & _ & Hfirst).
  exact (Hfirst {| key := "branch.pr/forker/42.github-pr-owner-number";
                   value := "octocat#hello-world#42" |} eq_refl).
Defined.

End OnScenario.

(* ================================================================== *)
(** * Further properties of the metadata codec *)
(* ================================================================== *)

Module CodecMore.
Import StrFacts RegExp RegExpFacts CodecFacts NumberFacts.

(** The decoder on [a#b#c] followed by the end of the line. *)
Lemma parse_first_line_of a b c post :
  one_line a = true -> one_line b = true -> one_line c = true ->
  Str.contains "#" b = false -> Str.contains "#" c = false ->
  line_end post ->
  parsePullRequestMetadata (Some (a ++ "#" ++ b ++ "#" ++ c ++ post))
  = Some {| owner := a; repositoryName := b; prNumber := Number c |}.
Proof.
  intros Ha Hb Hc Hnb Hnc Hpost. simpl.
  set (v := a ++ String "#" (b ++ String "#" (c ++ post))).
  assert (Hr : rmatch PullRequestMetadataRegex v []
                 (fun rest cs =>
                    Some (match_array PullRequestMetadataRegex v rest cs))
               = Some (match_array PullRequestMetadataRegex v post
                         [(3, c); (2, b); (1, a)])).
  { unfold v at 1. apply metadata_regex_exact; try assumption; reflexivity. }
  apply (parse_of_exec v (Str.take (String.length v - String.length post) v)).
  - apply is_empty_append_hash.
  - rewrite exec_unfold, Hr. reflexivity.
Qed.

Section Encode.

Context {Protocol : Type} `{PA : ProtocolApi Protocol}.

(** The encoded metadata of a pull request whose base repository name holds
    no [#] decodes to its owner, repository name and number. *)
Lemma decode_encode (pullRequest : Model.IPullRequestModel Protocol) :
  let base := Model.repositoryCloneUrl (Model.base pullRequest) in
  Str.contains "#" (protocol_repositoryName base) = false ->
  one_line (protocol_owner base) = true ->
  one_line (protocol_repositoryName base) = true ->
  parsePullRequestMetadata (Some (buildPullRequestMetadata pullRequest))
  = Some {| owner := protocol_owner base;
            repositoryName := protocol_repositoryName base;
            prNumber := JsNumber_of_Z (Model.prNumber pullRequest) |}.
Proof.
  intros base Hrepo Hline_owner Hline_repo.
  unfold buildPullRequestMetadata. fold base.
  destruct (Number_toString_chars (Model.prNumber pullRequest)) as [Hn Hl].
  rewrite (parse_line _ _ _ Hline_owner Hline_repo Hl Hrepo Hn).
  now rewrite Number_of_toString.
Qed.

(** X1: For a base owner and a base repository name on one line, the encoded
    metadata decodes to the pull request exactly when the repository name
    holds no [#]; a [#] in the owner does no harm. *)
Theorem roundtrip_iff_repository_name_without_hash
    (pullRequest : Model.IPullRequestModel Protocol) :
  let base := Model.repositoryCloneUrl (Model.base pullRequest) in
  one_line (protocol_owner base) = true ->
  one_line (protocol_repositoryName base) = true ->
  (parsePullRequestMetadata (Some (buildPullRequestMetadata pullRequest))
   = Some {| owner := protocol_owner base;
             repositoryName := protocol_repositoryName base;
             prNumber := JsNumber_of_Z (Model.prNumber pullRequest) |}
   <-> Str.contains "#" (protocol_repositoryName base) = false).
Proof.
  intros base Ho Hr. split.
  - intros Hp. destruct (parse_sound _ _ Hp)
      as (pre & a & b & c & post & _ & _ & _ & _ & Hnb & _ & _ & Hm).
    injection Hm as _ Hb _. now rewrite Hb.
  - intros Hn. now apply decode_encode.
Qed.

(** X2: Two pull requests whose base owners and repository names are on one
    line, with no [#] in the repository names, have the same encoded
    metadata only if they have the same base owner, the same base repository
    name and the same number. *)
Theorem buildPullRequestMetadata_injective
    (p q : Model.IPullRequestModel Protocol) :
  let bp := Model.repositoryCloneUrl (Model.base p) in
  let bq := Model.repositoryCloneUrl (Model.base q) in
  one_line (protocol_owner bp) = true ->
  one_line (protocol_repositoryName bp) = true ->
  Str.contains "#" (protocol_repositoryName bp) = false ->
  one_line (protocol_owner bq) = true ->
  one_line (protocol_repositoryName bq) = true ->
  Str.contains "#" (protocol_repositoryName bq) = false ->
  buildPullRequestMetadata p = buildPullRequestMetadata q ->
  protocol_owner bp = protocol_owner bq /\
  protocol_repositoryName bp = protocol_repositoryName bq /\
  Model.prNumber p = Model.prNumber q.
Proof.
  intros bp bq Hop Hrp Hnp Hoq Hrq Hnq E.
  pose proof (decode_encode p Hnp Hop Hrp) as Dp.
  pose proof (decode_encode q Hnq Hoq Hrq) as Dq.
  rewrite E, Dq in Dp.
  remember (JsNumber_of_Z (Model.prNumber p)) as np eqn:Enp.
  remember (JsNumber_of_Z (Model.prNumber q)) as nq eqn:Enq.
  injection Dp as Ho Hr Hn. subst np nq.
  apply JsNumber_of_Z_inj in Hn. now repeat split.
Qed.

End Encode.

(** X3: Whenever the decoder returns a record, its repository name holds no [#]
    and no line terminator, its owner holds no line terminator, and the
    input holds the owner, a [#], the repository name and a [#] in a row. *)
Theorem decoded_fields (v : string) (m : PullRequestMetadata) :
  parsePullRequestMetadata (Some v) = Some m ->
  Str.contains "#" (repositoryName m) = false /\
  one_line (repositoryName m) = true /\
  one_line (owner m) = true /\
  exists pre rest, v = pre ++ owner m ++ "#" ++ repositoryName m ++ "#" ++ rest.
Proof.
  intros Hp. destruct (parse_sound v m Hp)
    as (pre & a & b & c & post & E & Ha & Hb & _ & Hnb & _ & _ & ->).
  cbn [owner repositoryName]. repeat split; try assumption.
  exists pre, (c ++ post). exact E.
Qed.

(** X4: Only the first line that holds two [#] counts: after [a#b#c], where [b]
    and [c] hold no [#], whatever follows a line terminator is ignored. *)
Theorem text_after_the_line_is_ignored (a b c rest : string) (t : ascii) :
  one_line a = true -> one_line b = true -> one_line c = true ->
  Str.contains "#" b = false -> Str.contains "#" c = false ->
  is_line_terminator t = true ->
  parsePullRequestMetadata (Some (a ++ "#" ++ b ++ "#" ++ c ++ String t rest))
  = parsePullRequestMetadata (Some (a ++ "#" ++ b ++ "#" ++ c)).
Proof.
  intros Ha Hb Hc Hnb Hnc Ht.
  rewrite (parse_first_line_of a b c (String t rest)); try assumption.
  now rewrite parse_line.
Qed.

(** X5: With nothing after the second [#], the number of the record is 0, the
    numeric conversion of the empty text, and not NaN. *)
Theorem empty_number_is_zero (a b : string) :
  one_line a = true -> one_line b = true -> Str.contains "#" b = false ->
  parsePullRequestMetadata (Some (a ++ "#" ++ b ++ "#"))
  = Some {| owner := a; repositoryName := b; prNumber := JFinite false 0 |}.
Proof.
  intros Ha Hb Hnb.
  pose proof (parse_line a b EmptyString Ha Hb eq_refl Hnb eq_refl) as H.
  simpl in H. simpl. exact H.
Qed.

End CodecMore.

(* ================================================================== *)
(** * Further properties of the reverse index and of the naming *)
(* ================================================================== *)

Module IndexMore.
Import StrFacts RegExp RegExpFacts CodecFacts IndexFacts.

(** A literal that matches stands at the head of the input. *)
Lemma lit_some {R : Type} (l inp : string) cs
    (k : string -> captures -> option R) (r : R) :
  rmatch (lit l) inp cs k = Some r ->
  exists rest, inp = l ++ rest /\ k rest cs = Some r.
Proof.
  revert inp. induction l as [|c l IH]; intros inp; cbn [lit rmatch].
  - intros H. now exists inp.
  - destruct inp as [|d inp]; [discriminate|]. cbn [atom_matches].
    destruct (Ascii.eqb_spec d c) as [->|]; [|discriminate].
    intros H. destruct (IH inp H) as (rest & -> & Hk). now exists rest.
Qed.

(** A successful [exec] matched at the head of some suffix of the input. *)
Lemma exec_some (r : regex) (inp : string) (m : list (option string)) :
  exec r inp = Some m ->
  exists pre s,
    inp = pre ++ s /\
    rmatch r s [] (fun rest cs => Some (match_array r s rest cs)) = Some m.
Proof.
  induction inp as [|c inp IH]; rewrite exec_unfold.
  - destruct (rmatch _ _ _ _) as [m'|] eqn:Hr; [|discriminate].
    intros [= <-]. now exists EmptyString, EmptyString.
  - destruct (rmatch _ _ _ _) as [m'|] eqn:Hr.
    + intros [= <-]. now exists EmptyString, (String c inp).
    + intros H. destruct (IH H) as (pre & s & -> & Hs).
      now exists (String c pre), s.
Qed.

(** X6: The branch name the pattern reads in a key is not empty, holds no line
    terminator, and stands in the key between [branch.] and
    [.github-pr-owner-number]; the pattern is not anchored, so that text
    may come before and after. *)
Theorem branch_of_key_sound (k b : string) :
  branch_of_key k = Some b ->
  b <> EmptyString /\ one_line b = true /\
  exists pre post,
    k = pre ++ "branch." ++ b ++ ".github-pr-owner-number" ++ post.
Proof.
  unfold branch_of_key, branchInfo_of. cbn [key bi_branch].
  destruct (exec PullRequestBranchRegex k) as [m|] eqn:He; [|discriminate].
  destruct (exec_some _ _ _ He) as (pre & s & -> & Hr). clear He.
  unfold PullRequestBranchRegex in Hr at 1. cbn [rmatch] in Hr.
  apply lit_some in Hr as (s1 & -> & Hr).
  destruct s1 as [|c s1]; [discriminate|].
  cbn [atom_matches] in Hr.
  destruct (negb (is_line_terminator c)) eqn:Hc; [|discriminate].
  apply star_greedy_some in Hr as (q & s2 & -> & Hq & Hr).
  apply lit_some in Hr as (post & -> & Hr).
  injection Hr as <-. cbn [match_array List.length Nat.eqb negb nth map seq].
  cbn [ngroups PullRequestBranchRegex lit Nat.max]. cbn [seq map nth capture Nat.eqb].
  replace (Str.take _ _) with (String c q)
    by (symmetry; exact (take_suffix (String c q)
                           (".github-pr-owner-number" ++ post))).
  intros [= <-]. split; [discriminate|]. split.
  - unfold one_line. cbn [Str.all]. rewrite Hc. exact Hq.
  - exists pre, post. reflexivity.
Qed.

End IndexMore.

Module NamingMore.
Import StrFacts NamingFacts.

Section Engine.

Context {Protocol Repo : Type}.
Context `{PA : ProtocolApi Protocol} `{RA : RepositoryApi Protocol Repo}.

(** X7: With more fuel than there are remotes, [getUniqueRemoteName] returns a
    name that no remote bears: the first free one among [name], [name1],
    [name2], ...; it returns [name] itself when no remote bears it. *)
Theorem getUniqueRemoteName_fresh (fuel : nat) (r : Repo) (name : string) :
  List.length (repo_remotes r) < fuel ->
  exists k,
    getUniqueRemoteName fuel r name = Some (remote_candidate name k) /\
    k <= List.length (repo_remotes r) /\
    (forall rm, In rm (repo_remotes r) ->
       remoteName rm <> remote_candidate name k) /\
    (forall j, j < k ->
       exists rm, In rm (repo_remotes r) /\
                  remoteName rm = remote_candidate name j) /\
    ((forall rm, In rm (repo_remotes r) -> remoteName rm <> name) -> k = 0).
Proof.
  intros Hfuel.
  destruct (getUniqueRemoteName_spec r name) as (k & Hk & Hfree & Htaken & Hrun).
  exists k. split; [now apply Hrun|]. split; [exact Hk|].
  assert (Hbears : forall j, j < k ->
            exists rm, In rm (repo_remotes r) /\
                       remoteName rm = remote_candidate name j).
  { intros j Hj. specialize (Htaken j Hj). unfold remote_taken in Htaken.
    apply existsb_exists in Htaken as (rm & Hin & E).
    apply String.eqb_eq in E. now exists rm. }
  repeat split.
  - intros rm Hin E. unfold remote_taken in Hfree.
    assert (Ht : existsb (fun e => String.eqb (remoteName e)
                                     (remote_candidate name k))
                         (repo_remotes r) = true).
    { apply existsb_exists. exists rm. split; [exact Hin|].
      now apply String.eqb_eq. }
    congruence.
  - exact Hbears.
  - intros Hnone. destruct k as [|k]; [reflexivity|].
    destruct (Hbears 0 ltac:(lia)) as (rm & Hin & E).
    exfalso. exact (Hnone rm Hin E).
Qed.

End Engine.

End NamingMore.

(* ================================================================== *)
(** * Further properties of the workflows *)
(* ================================================================== *)

Module WorkflowsMore.
Import StrFacts NamingFacts NumberFacts CodecFacts Workflows.

Section Engine.

Context {Protocol Repo : Type}.
Context `{PA : ProtocolApi Protocol} `{RA : RepositoryApi Protocol Repo}.

(** ** The association and the marker, written then read *)

(** X8: When the engine gives back the config value that was set, a branch
    associated with a pull request by [associateBranchWithPullRequest] is
    found by [getMatchingPullRequestMetadataForBranch] to carry the base
    owner, the base repository name and the number of that pull request. *)
Theorem association_round_trip
    (pullRequest : Model.IPullRequestModel Protocol) (branchName : string)
    (r : Repo) (w : World Repo) :
  let base := Model.repositoryCloneUrl (Model.base pullRequest) in
  (forall k v r0 r1,
     repo_setConfig k v r0 = (Accepted, r1) -> repo_getConfig r1 k = Some v) ->
  Str.contains "#" (protocol_repositoryName base) = false ->
  one_line (protocol_owner base) = true ->
  one_line (protocol_repositoryName base) = true ->
  associateBranchWithPullRequest pullRequest branchName (start r)
  = (Returned tt, w) ->
  fst (getMatchingPullRequestMetadataForBranch branchName w)
  = Returned (Some {| owner := protocol_owner base;
                      repositoryName := protocol_repositoryName base;
                      prNumber := JsNumber_of_Z (Model.prNumber pullRequest) |}).
Proof.
  intros base Hlaw Hrepo Ho Hr.
  unfold associateBranchWithPullRequest,
    getMatchingPullRequestMetadataForBranch.
  unfold_monad.
  destruct (repo_setConfig _ _ r) as [[|why] r1] eqn:Hset; [|discriminate].
  intros [= <-]. cbn [repo calls fst].
  rewrite (Hlaw _ _ _ _ Hset). f_equal. now apply CodecMore.decode_encode.
Qed.

(** X9: A branch whose association entry is missing or empty has no metadata:
    [getMatchingPullRequestMetadataForBranch] returns [null], asks for the
    one key [branch.<name>.github-pr-owner-number] and changes nothing. *)
Theorem unassociated_branch_has_no_metadata (branchName : string) (r : Repo) :
  let k := "branch." ++ branchName ++ "." ++ PullRequestMetadataKey in
  truthy (repo_getConfig r k) = false ->
  getMatchingPullRequestMetadataForBranch branchName (start r)
  = (Returned None,
     {| repo := r; calls := [GetConfig k (repo_getConfig r k)] |}).
Proof.
  intros k Hk. unfold getMatchingPullRequestMetadataForBranch.
  fold k. unfold_monad. f_equal. f_equal.
  unfold parsePullRequestMetadata.
  destruct (repo_getConfig r k) as [v|]; [|reflexivity]. now rewrite Hk.
Qed.

(** The name [getUniqueRemoteName] returns is borne by no remote. *)
Lemma unique_remote_name_free (fuel : nat) (rs : list (Remote Protocol))
    (name u : string) (n : Z) (x : string) :
  getUniqueRemoteName_loop fuel rs name u n = Some x ->
  remote_taken rs x = false.
Proof.
  revert u n. induction fuel as [|fuel IH]; intros u n; simpl; [discriminate|].
  destruct (find _ rs) as [e|] eqn:Hf.
  - apply IH.
  - intros [= <-]. unfold remote_taken.
    destruct (existsb _ rs) eqn:He; [|reflexivity].
    apply find_existsb in He as [e He]. congruence.
Qed.

(** The calls of [createRemote] and what it leaves, in a run that returns. *)
Lemma createRemote_returns (fuel : nat) (cloneUrl : Protocol)
    (w w' : World Repo) (rn : string) :
  let same := fun rm : Remote Protocol =>
                protocol_equals (Protocol_new (url rm)) cloneUrl in
  let add := AddRemote rn (protocol_normalizeUri cloneUrl) in
  let mark :=
    SetConfig ("remote." ++ rn ++ "." ++ PullRequestRemoteMetadataKey) "true" in
  createRemote fuel cloneUrl w = (Returned rn, w') ->
  (w' = w /\
   exists rm, find same (repo_remotes (repo w)) = Some rm /\
              rn = remoteName rm) \/
  (find same (repo_remotes (repo w)) = None /\
   remote_taken (repo_remotes (repo w)) rn = false /\
   calls w' = (calls w ++ [add; mark])%list /\
   exists r1,
     repo_addRemote rn (protocol_normalizeUri cloneUrl) (repo w)
     = (Accepted, r1) /\
     repo_setConfig ("remote." ++ rn ++ "." ++ PullRequestRemoteMetadataKey)
       "true" r1 = (Accepted, repo w')).
Proof.
  intros same add mark. subst add mark. unfold createRemote. fold same.
  unfold_monad.
  destruct (find same (repo_remotes (repo w))) as [rm|] eqn:Hf.
  - intros [= <- <-]. left. split; [reflexivity|]. now exists rm.
  - destruct (getUniqueRemoteName fuel (repo w) (protocol_owner cloneUrl))
      as [x|] eqn:Hu; [|discriminate].
    apply unique_remote_name_free in Hu.
    engine_cases; try discriminate.
    intros [= <- <-]. right. cbn [repo calls].
    repeat split; try assumption.
    + now rewrite <- app_assoc.
    + eexists. split; eassumption.
Qed.

(** X10: When the engine gives back the config value that was set, a remote that
    [createRemote] has just created is recognised by
    [isRemoteCreatedForPullRequest]. *)
Theorem created_remote_is_recognised (fuel : nat) (cloneUrl : Protocol)
    (r : Repo) (w : World Repo) (rn : string) :
  (forall k v r0 r1,
     repo_setConfig k v r0 = (Accepted, r1) -> repo_getConfig r1 k = Some v) ->
  find (fun rm => protocol_equals (Protocol_new (url rm)) cloneUrl)
       (repo_remotes r) = None ->
  createRemote fuel cloneUrl (start r) = (Returned rn, w) ->
  fst (isRemoteCreatedForPullRequest rn w) = Returned true.
Proof.
  intros Hlaw Hnone Hrun.
  apply createRemote_returns in Hrun
    as [(_ & rm & Hf & _)|(_ & _ & _ & r1 & _ & Hset)].
  - cbn [start repo] in Hf. congruence.
  - unfold isRemoteCreatedForPullRequest. unfold_monad.
    now rewrite (Hlaw _ _ _ _ Hset).
Qed.

(** X11: [createRemote] is idempotent: when the engine lists a remote that was
    added under its name and URL, next to those it had, when writing a
    config entry leaves the remotes as they are, and when the normalized URL
    of the clone identity denotes that identity, a second call returns the
    name the first one returned, calls nothing and changes nothing. *)
Theorem createRemote_idempotent (fuel fuel' : nat) (cloneUrl : Protocol)
    (r : Repo) (w : World Repo) (rn : string) :
  (forall n u r0 r1,
     repo_addRemote n u r0 = (Accepted, r1) ->
     (exists rm, In rm (repo_remotes r1) /\ remoteName rm = n /\ url rm = u) /\
     (forall rm, In rm (repo_remotes r1) ->
        In rm (repo_remotes r0) \/ (remoteName rm = n /\ url rm = u))) ->
  (forall k v r0 r1,
     repo_setConfig k v r0 = (Accepted, r1) ->
     repo_remotes r1 = repo_remotes r0) ->
  protocol_equals (Protocol_new (protocol_normalizeUri cloneUrl)) cloneUrl
  = true ->
  createRemote fuel cloneUrl (start r) = (Returned rn, w) ->
  createRemote fuel' cloneUrl (start (repo w))
  = (Returned rn, start (repo w)).
Proof.
  intros Hadd Hset Hnorm Hrun.
  apply createRemote_returns in Hrun
    as [(-> & rm & Hf & ->)|(Hnone & _ & _ & r1 & Ha & Hs)].
  - cbn [start repo] in *. unfold createRemote. unfold_monad.
    now rewrite Hf.
  - cbn [start repo] in *.
    destruct (Hadd _ _ _ _ Ha) as ((rm & Hin & Hname & Hurl) & Honly).
    rewrite <- (Hset _ _ _ _ Hs) in Hin, Honly.
    unfold createRemote. unfold_monad.
    destruct (find _ (repo_remotes (repo w))) as [rm'|] eqn:Hf.
    + apply find_some in Hf as [Hin' Hsame].
      destruct (Honly rm' Hin') as [Hold|[Hn _]]; [|now rewrite Hn].
      exfalso. pose proof (find_none _ _ Hnone rm' Hold) as Hfalse.
      cbn beta in Hfalse. congruence.
    + exfalso. pose proof (find_none _ _ Hf rm Hin) as Hfalse.
      cbn beta in Hfalse. rewrite Hurl, Hnorm in Hfalse. discriminate.
Qed.

(** ** The order of the calls of [createAndCheckout] *)



(** The calls of the branch-name loop are lookups, whatever its outcome. *)
Lemma branch_loop_queries (fuel : nat) (b res : string) (n : Z)
    (w : World Repo) :
  exists l,
    calls (snd (getBranchNameForPullRequest_loop fuel b res n w))
    = (calls w ++ l)%list /\
    forallb is_query l = true.
Proof.
  revert res n w. induction fuel as [|fuel IH]; intros res n w;
    cbn [getBranchNameForPullRequest_loop].
  - exists []. now rewrite app_nil_r.
  - unfold_monad.
    destruct (repo_getBranch (repo w) res) as [br|].
    + destruct (IH (b ++ "-" ++ Number_toString n) (n + 1)%Z
                  {| repo := repo w;
                     calls := calls w ++ [GetBranch res (Some br)] |})
        as (l & Hl & Hq).
      exists (GetBranch res (Some br) :: l). split; [|exact Hq].
      etransitivity; [exact Hl|]. cbn [calls]. now rewrite <- app_assoc.
    + now exists [GetBranch res None].
Qed.

(** The calls of [createRemote] write no association, whatever its
    outcome. *)
Lemma createRemote_calls (fuel : nat) (cloneUrl : Protocol) (w : World Repo) :
  exists l,
    calls (snd (createRemote fuel cloneUrl w)) = (calls w ++ l)%list /\
    forall k v, In (SetConfig k v) l -> String.prefix "branch." k = false.
Proof.
  unfold createRemote. unfold_monad.
  destruct (find _ (repo_remotes (repo w))) as [rm|].
  - exists []. split; [now rewrite app_nil_r | intros k v []].
  - destruct (getUniqueRemoteName fuel (repo w) (protocol_owner cloneUrl))
      as [x|].
    + engine_cases; eexists; (split; [rewrite <- ?app_assoc; reflexivity|]);
        intros k v Hin; simpl in Hin;
        repeat destruct Hin as [Hin|Hin]; try discriminate; try contradiction;
        injection Hin as <- _; reflexivity.
    + exists []. split; [now rewrite app_nil_r | intros k v []].
Qed.

(** X13: [createAndCheckout] writes the association last: in every run, also one
    that fails, an association entry is written only after the head ref was
    fetched into the branch, the branch was checked out and its tracking
    branch was set, and nothing is called after it. *)
Theorem createAndCheckout_association_last (fuel : nat)
    (pullRequest : Model.IPullRequestModel Protocol) (r : Repo)
    (k v : string) :
  let trace := calls (snd (createAndCheckout fuel pullRequest (start r))) in
  In (SetConfig k v) trace ->
  String.prefix "branch." k = true ->
  exists before rn name,
    let headRef := Model.ref (Model.head pullRequest) in
    let refspec := headRef ++ ":" ++ name in
    let tracked := "refs/remotes/" ++ rn ++ "/" ++ headRef in
    k = "branch." ++ name ++ "." ++ PullRequestMetadataKey /\
    v = buildPullRequestMetadata pullRequest /\
    trace
    = (before
       ++ [Fetch rn (Some refspec);
           Checkout name;
           SetTrackingBranch name tracked;
           SetConfig k v])%list.
Proof.
  intros trace. subst trace.
  destruct (createAndCheckout fuel pullRequest (start r)) as [out w] eqn:Hrun.
  cbn [snd]. revert Hrun. unfold createAndCheckout.
  unfold bind at 1. unfold getBranchNameForPullRequest.
  set (b := "pr/" ++ _).
  destruct (branch_loop_queries fuel b b 1%Z (start r)) as (l & Hl & Hq).
  assert (Hlookups : forall c, In c l -> is_query c = true)
    by (now apply forallb_forall).
  destruct (getBranchNameForPullRequest_loop fuel b b 1%Z (start r))
    as [[name| |] w1] eqn:Hloop; cbn [snd start calls app] in *.
  2,3: intros [= <- <-]; rewrite Hl; intros Hin; apply Hlookups in Hin;
       discriminate.
  pose proof (branch_loop_returns _ _ _ _ _ _ _ Hloop) as [Hrepo Hnone].
  cbn [start repo] in *.
  unfold bind at 1. unfold getBranch at 1, query. rewrite Hrepo, Hnone.
  unfold bind at 1. unfold bind at 1.
  destruct (createRemote_calls fuel
              (Model.repositoryCloneUrl (Model.head pullRequest))
              {| repo := r; calls := calls w1 ++ [GetBranch name None] |})
    as (l2 & Hl2 & Hmark).
  assert (Hold : In (SetConfig k v)
                   (calls (snd (createRemote fuel
                      (Model.repositoryCloneUrl (Model.head pullRequest))
                      {| repo := r;
                         calls := calls w1 ++ [GetBranch name None] |}))) ->
                 String.prefix "branch." k = true -> False).
  { rewrite Hl2. cbn [calls]. rewrite Hl, !in_app_iff.
    intros [[Hin|Hin]|Hin] Hk.
    - apply Hlookups in Hin. discriminate.
    - simpl in Hin. destruct Hin as [Hin|[]]. discriminate.
    - rewrite (Hmark _ _ Hin) in Hk. discriminate. }
  destruct (createRemote fuel _ _) as [[rn| |] w2] eqn:Hremote;
    cbn [snd calls] in *.
  2,3: intros [= <- <-] Hin Hk; exfalso; exact (Hold Hin Hk).
  unfold_monad. engine_cases; intros [= <- <-]; cbn [calls];
    rewrite !in_app_iff; simpl; intros Hin Hk;
    repeat (destruct Hin as [Hin|Hin]); try discriminate;
    try contradiction; try (exfalso; exact (Hold Hin Hk)).
  all: injection Hin as <- <-; exists (calls w2), rn, name;
       repeat split; rewrite <- ?app_assoc; reflexivity.
Qed.

(** ** [fetchAndCheckout]: the order of its calls, and how it fails *)

(** Case analysis on the answers and the replies of the engine and on the
    tests of the helper. *)
Ltac run_cases :=
  repeat (cbn [repo calls app fst snd] in *;
          match goal with
          | |- context [let (_, _) := ?e in _] =>
              destruct e as [[|?why] ?r] eqn:?
          | |- context [match repo_getBranch ?r ?n with _ => _ end] =>
              destruct (repo_getBranch r n) as [?b|] eqn:?
          | |- context [if ?c then _ else _] => destruct c eqn:?
          end);
  cbn [repo calls app fst snd] in *.

(** X14: A completed [fetchAndCheckout] made these calls, in this order: the
    fetch of all the refs of the remote; the lookup of the branch and, when
    it is not there, its creation from the tracked branch and a second
    lookup; the checkout; the setting of the tracking branch, exactly when
    the branch was reported without upstream; the pull, exactly when it was
    reported behind with nothing ahead; the writing of the association. *)
Theorem fetchAndCheckout_completed (rm : Remote Protocol)
    (branchName : string) (pullRequest : Model.IPullRequestModel Protocol)
    (r : Repo) (w : World Repo) :
  let tracked := "refs/remotes/" ++ remoteName rm ++ "/" ++ branchName in
  let association := "branch." ++ branchName ++ "." ++ PullRequestMetadataKey in
  fetchAndCheckout rm branchName pullRequest (start r) = (Returned tt, w) ->
  exists b lookup,
    (lookup = [GetBranch branchName (Some b)] \/
     exists t,
       lookup = [GetBranch branchName None;
                 GetBranch tracked (Some t);
                 CreateBranch branchName (commit t);
                 SetTrackingBranch branchName tracked;
                 GetBranch branchName (Some b)]) /\
    calls w
    = ([Fetch (remoteName rm) None]
       ++ lookup
       ++ [Checkout branchName]
       ++ (if truthy (upstream b) then []
           else [SetTrackingBranch branchName tracked])
       ++ (if behind_only b then [pull] else [])
       ++ [SetConfig association (buildPullRequestMetadata pullRequest)])%list.
Proof.
  intros tracked association. subst association.
  unfold fetchAndCheckout, fetchAndCreateBranch, associateBranchWithPullRequest.
  fold tracked. unfold_monad. run_cases; try discriminate.
  all: intros [= <-]; cbn [calls].
  all: repeat match goal with
              | H : negb _ = true |- _ => apply negb_true_iff in H
              | H : negb _ = false |- _ => apply negb_false_iff in H
              end.
  all: match goal with
       | H : truthy (upstream ?b) = _, H' : behind_only ?b = _ |- _ =>
           exists b;
           first
             [ exists [GetBranch branchName (Some b)]; rewrite H, H';
               split; [left; reflexivity | reflexivity]
             | match goal with
               | Ht : repo_getBranch _ _ = Some ?t |- _ =>
                   exists [GetBranch branchName None;
                           GetBranch tracked (Some t);
                           CreateBranch branchName (commit t);
                           SetTrackingBranch branchName tracked;
                           GetBranch branchName (Some b)];
                   rewrite H, H';
                   split; [right; exists t; reflexivity | reflexivity]
               end ]
       end.
Qed.


(** ** A checked-out pull request is matched to its branch *)


(** X17: When the engine gives back the config value that was set, the branch
    of a completed [fetchAndCheckout] is found by
    [getMatchingPullRequestMetadataForBranch] to carry the base owner, the
    base repository name and the number of the pull request. *)
Theorem fetchAndCheckout_then_matching (rm : Remote Protocol)
    (branchName : string) (pullRequest : Model.IPullRequestModel Protocol)
    (r : Repo) (w : World Repo) :
  let base := Model.repositoryCloneUrl (Model.base pullRequest) in
  (forall k v r0 r1,
     repo_setConfig k v r0 = (Accepted, r1) -> repo_getConfig r1 k = Some v) ->
  Str.contains "#" (protocol_repositoryName base) = false ->
  one_line (protocol_owner base) = true ->
  one_line (protocol_repositoryName base) = true ->
  fetchAndCheckout rm branchName pullRequest (start r) = (Returned tt, w) ->
  fst (getMatchingPullRequestMetadataForBranch branchName w)
  = Returned (Some {| owner := protocol_owner base;
                      repositoryName := protocol_repositoryName base;
                      prNumber := JsNumber_of_Z (Model.prNumber pullRequest) |}).
Proof.
  intros base Hlaw Hrepo Ho Hr.
  unfold fetchAndCheckout, fetchAndCreateBranch, associateBranchWithPullRequest.
  unfold_monad. run_cases; try discriminate.
  all: intros [= <-];
    unfold getMatchingPullRequestMetadataForBranch; unfold_monad;
    cbn [repo calls fst];
    match goal with
    | H : repo_setConfig _ _ _ = (Accepted, _) |- _ => rewrite (Hlaw _ _ _ _ H)
    end;
    f_equal; now apply CodecMore.decode_encode.
Qed.

(** ** The lookups change nothing *)

(** X18: [getHeadRemoteForPullRequest] returns the remote of a known repository
    whose protocol identity is defined and equals the clone URL of the head;
    it returns [null] exactly when no known repository is such, and a
    repository without protocol identity is never returned for want of
    one. *)
Theorem getHeadRemoteForPullRequest_spec
    (githubRepositories : list (GitHubRepository Protocol))
    (pullRequest : Model.IPullRequestModel Protocol) :
  let headUrl := Model.repositoryCloneUrl (Model.head pullRequest) in
  let found := getHeadRemoteForPullRequest githubRepositories pullRequest in
  (forall rm, found = Some rm ->
     exists g p, In g githubRepositories /\ remote g = rm /\
                 gitProtocol rm = Some p /\ protocol_equals p headUrl = true) /\
  (found = None <->
   forall g p, In g githubRepositories ->
     gitProtocol (remote g) = Some p -> protocol_equals p headUrl = false).
Proof.
  intros headUrl found. subst found. unfold getHeadRemoteForPullRequest.
  fold headUrl. fold (is_head_repository headUrl).
  destruct (find (is_head_repository headUrl) githubRepositories) as [g|] eqn:Hf;
    cbn [option_map].
  - apply find_some in Hf as [Hin Hg]. unfold is_head_repository in Hg.
    destruct (gitProtocol (remote g)) as [p|] eqn:Hp; [|discriminate].
    split.
    + intros rm [= <-]. now exists g, p.
    + split; [discriminate|]. intros H. specialize (H g p Hin Hp). congruence.
  - split; [discriminate|]. split; [|reflexivity]. intros _ g p Hin Hp.
    pose proof (find_none _ _ Hf g Hin) as Hg.
    unfold is_head_repository in Hg. now rewrite Hp in Hg.
Qed.


End Engine.

End WorkflowsMore.

(* ================================================================== *)
(** * The engine of the scenario obeys the laws the statements assume *)
(* ================================================================== *)

Module GitFacts.

Lemma find_set_entry (k v : string) (cs : list ConfigEntry) :
  find (fun c => String.eqb (key c) k) (Git.set_entry k v cs)
  = Some {| key := k; value := v |}.
Proof.
  induction cs as [|c cs IH]; cbn [Git.set_entry].
  - cbn [find key]. now rewrite String.eqb_refl.
  - destruct (String.eqb (key c) k) eqn:E; cbn [find key].
    + now rewrite String.eqb_refl.
    + now rewrite E.
Qed.

(** A config value that was set is the one that is read. *)
Lemma setConfig_getConfig (k v : string) (r0 r1 : Git.t) :
  Git.setConfig k v r0 = (Accepted, r1) -> Git.getConfig r1 k = Some v.
Proof.
  unfold Git.setConfig. intros [= <-]. unfold Git.getConfig.
  cbn [Git.configs]. now rewrite find_set_entry.
Qed.

(** Setting a config value leaves the remotes as they are. *)
Lemma setConfig_remotes (k v : string) (r0 r1 : Git.t) :
  Git.setConfig k v r0 = (Accepted, r1) -> Git.remotes r1 = Git.remotes r0.
Proof. unfold Git.setConfig. now intros [= <-]. Qed.

(** A remote that was added is listed under its name and URL, next to the
    remotes there were. *)
Lemma addRemote_remotes (n u : string) (r0 r1 : Git.t) :
  Git.addRemote n u r0 = (Accepted, r1) ->
  (exists rm, In rm (Git.remotes r1) /\ remoteName rm = n /\ url rm = u) /\
  (forall rm, In rm (Git.remotes r1) ->
     In rm (Git.remotes r0) \/ (remoteName rm = n /\ url rm = u)).
Proof.
  unfold Git.addRemote. destruct (existsb _ _); [discriminate|].
  intros [= <-]. cbn [Git.remotes]. split.
  - eexists. split; [apply in_or_app; right; left; reflexivity|]. now split.
  - intros rm Hin. apply in_app_or in Hin as [Hin|[<-|[]]]; [now left|].
    right. now split.
Qed.

End GitFacts.

(* ================================================================== *)
(** * The further properties on the scenario *)
(* ================================================================== *)

Module OnScenarioMore.
Import Scenario CodecMore IndexMore NamingMore WorkflowsMore GitFacts.

Lemma roundtrip_iff_repository_name_without_hash_witness :
  parsePullRequestMetadata (Some (buildPullRequestMetadata pr42))
  = Some {| owner := "octocat"; repositoryName := "hello-world";
            prNumber := JsNumber_of_Z 42 |}.
Proof.
  apply (roundtrip_iff_repository_name_without_hash (PA := CloneUrl_api) pr42
           eq_refl eq_refl).
  reflexivity.
Defined.

Lemma buildPullRequestMetadata_injective_witness :
  CloneUrl.owner (Model.repositoryCloneUrl (Model.base pr42))
  = CloneUrl.owner (Model.repositoryCloneUrl (Model.base pr42_again)) /\
  CloneUrl.repositoryName (Model.repositoryCloneUrl (Model.base pr42))
  = CloneUrl.repositoryName (Model.repositoryCloneUrl (Model.base pr42_again)) /\
  Model.prNumber pr42 = Model.prNumber pr42_again.
Proof.
  exact (buildPullRequestMetadata_injective (PA := CloneUrl_api) pr42 pr42_again
           eq_refl eq_refl eq_refl eq_refl eq_refl eq_refl eq_refl).
Defined.

Lemma decoded_fields_witness :
  Str.contains "#" "hello-world" = false /\
  one_line "hello-world" = true /\
  one_line "octo#cat" = true /\
  exists pre rest,
    "octo#cat#hello-world#42"
    = pre ++ "octo#cat" ++ "#" ++ "hello-world" ++ "#" ++ rest.
Proof.
  exact (decoded_fields "octo#cat#hello-world#42"
           {| owner := "octo#cat"; repositoryName := "hello-world";
              prNumber := JsNumber_of_Z 42 |}
           ltac:(vm_compute; reflexivity)).
Defined.

Lemma text_after_the_line_is_ignored_witness :
  parsePullRequestMetadata
    (Some ("octocat" ++ "#" ++ "hello-world" ++ "#" ++ "42"
           ++ String "010" "x#y#z"))
  = parsePullRequestMetadata
      (Some ("octocat" ++ "#" ++ "hello-world" ++ "#" ++ "42")).
Proof.
  exact (text_after_the_line_is_ignored "octocat" "hello-world" "42" "x#y#z"
           "010" eq_refl eq_refl eq_refl eq_refl eq_refl eq_refl).
Defined.

Lemma empty_number_is_zero_witness :
  parsePullRequestMetadata (Some ("octocat" ++ "#" ++ "hello-world" ++ "#"))
  = Some {| owner := "octocat"; repositoryName := "hello-world";
            prNumber := JFinite false 0 |}.
Proof.
  exact (empty_number_is_zero "octocat" "hello-world" eq_refl eq_refl eq_refl).
Defined.

Lemma branch_of_key_sound_witness :
  "pr/forker/42" <> EmptyString /\ one_line "pr/forker/42" = true /\
  exists pre post,
    "branch.pr/forker/42.github-pr-owner-number"
    = pre ++ "branch." ++ "pr/forker/42" ++ ".github-pr-owner-number" ++ post.
Proof.
  exact (branch_of_key_sound "branch.pr/forker/42.github-pr-owner-number"
           "pr/forker/42" ltac:(vm_compute; reflexivity)).
Defined.

Lemma getUniqueRemoteName_fresh_witness :
  getUniqueRemoteName 2 clone "origin" = Some "origin1".
Proof.
  destruct (getUniqueRemoteName_fresh (RA := Git_api) 2 clone "origin" ltac:(vm_compute; lia))
    as (k & Hrun & Hk & _).
  destruct k as [|[|k]].
  - vm_compute in Hrun. discriminate.
  - exact Hrun.
  - vm_compute in Hk. lia.
Defined.

Lemma association_round_trip_witness :
  fst (getMatchingPullRequestMetadataForBranch "master"
         (snd (associateBranchWithPullRequest pr42 "master" (start clone))))
  = Returned (Some {| owner := "octocat"; repositoryName := "hello-world";
                      prNumber := JsNumber_of_Z 42 |}).
Proof.
  exact (association_round_trip (PA := CloneUrl_api) (RA := Git_api) pr42 "master" clone
           (snd (associateBranchWithPullRequest pr42 "master" (start clone)))
           setConfig_getConfig eq_refl eq_refl eq_refl eq_refl).
Defined.

Lemma unassociated_branch_has_no_metadata_witness :
  getMatchingPullRequestMetadataForBranch "master" (start clone)
  = (Returned None,
     {| repo := clone;
        calls := [GetConfig "branch.master.github-pr-owner-number" None] |}).
Proof.
  exact (unassociated_branch_has_no_metadata (RA := Git_api) "master" clone eq_refl).
Defined.

Lemma created_remote_is_recognised_witness :
  fst (isRemoteCreatedForPullRequest "forker"
         (snd (createRemote 2 (CloneUrl.of_url fork_url) (start clone))))
  = Returned true.
Proof.
  exact (created_remote_is_recognised (RA := Git_api) 2 (CloneUrl.of_url fork_url) clone
           (snd (createRemote 2 (CloneUrl.of_url fork_url) (start clone)))
           "forker" setConfig_getConfig eq_refl eq_refl).
Defined.

Lemma createRemote_idempotent_witness :
  let once := snd (createRemote 2 (CloneUrl.of_url fork_url) (start clone)) in
  createRemote 1 (CloneUrl.of_url fork_url) (start (repo once))
  = (Returned "forker", start (repo once)).
Proof.
  exact (createRemote_idempotent (RA := Git_api) 2 1 (CloneUrl.of_url fork_url) clone
           (snd (createRemote 2 (CloneUrl.of_url fork_url) (start clone)))
           "forker" addRemote_remotes setConfig_remotes eq_refl eq_refl).
Defined.


Lemma createAndCheckout_association_last_witness :
  exists before rn name,
    let refspec := "feature-x" ++ ":" ++ name in
    let tracked := "refs/remotes/" ++ rn ++ "/" ++ "feature-x" in
    calls (snd (createAndCheckout 3 pr42 (start clone)))
    = (before
       ++ [Fetch rn (Some refspec);
           Checkout name;
           SetTrackingBranch name tracked;
           SetConfig "branch.pr/forker/42.github-pr-owner-number"
             "octocat#hello-world#42"])%list.
Proof.
  assert (Hin : In (SetConfig "branch.pr/forker/42.github-pr-owner-number"
                      "octocat#hello-world#42")
                   (calls (snd (createAndCheckout 3 pr42 (start clone)))))
    by (vm_compute; repeat (first [left; reflexivity | right])).
  destruct (createAndCheckout_association_last 3 pr42 clone _ _ Hin eq_refl)
    as (before & rn & name & _ & _ & Hcalls).
  exists before, rn, name. exact Hcalls.
Defined.

Lemma fetchAndCheckout_completed_witness :
  exists b lookup,
    calls (snd (fetchAndCheckout origin "master" pr42 (start behind_master)))
    = ([Fetch "origin" None]
       ++ lookup
       ++ [Checkout "master"]
       ++ (if truthy (upstream b) then []
           else [SetTrackingBranch "master" "refs/remotes/origin/master"])
       ++ (if behind_only b then [pull] else [])
       ++ [SetConfig "branch.master.github-pr-owner-number"
             "octocat#hello-world#42"])%list.
Proof.
  assert (Hrun : fetchAndCheckout origin "master" pr42 (start behind_master)
                 = (Returned tt,
                    snd (fetchAndCheckout origin "master" pr42
                           (start behind_master))))
    by (vm_compute; reflexivity).
  destruct (fetchAndCheckout_completed origin "master" pr42 behind_master _ Hrun)
    as (b & lookup & _ & Hcalls).
  exists b, lookup. exact Hcalls.
Defined.



Lemma fetchAndCheckout_then_matching_witness :
  fst (getMatchingPullRequestMetadataForBranch "master"
         (snd (fetchAndCheckout origin "master" pr42 (start behind_master))))
  = Returned (Some {| owner := "octocat"; repositoryName := "hello-world";
                      prNumber := JsNumber_of_Z 42 |}).
Proof.
  assert (Hrun : fetchAndCheckout origin "master" pr42 (start behind_master)
                 = (Returned tt,
                    snd (fetchAndCheckout origin "master" pr42
                           (start behind_master))))
    by (vm_compute; reflexivity).
  exact (fetchAndCheckout_then_matching origin "master" pr42 behind_master _
           setConfig_getConfig eq_refl eq_refl eq_refl Hrun).
Defined.

Lemma getHeadRemoteForPullRequest_spec_witness :
  getHeadRemoteForPullRequest [{| remote := origin |}] pr42 = None.
Proof.
  destruct (getHeadRemoteForPullRequest_spec [{| remote := origin |}] pr42)
    as (_ & Hnone).
  apply Hnone. intros g p [<-|[]] [= <-]. reflexivity.
Defined.


End OnScenarioMore.
